(** * Besemer switch and latency-free grid scanner

    A shallow embedding of [besemer_core.py], [scanner.py],
    [HubbleDipoleAnalyzer.find_dipole_structure] of [hubble_dipole.py],
    [PlanckCMBData] of [real_data_loader.py] and
    [HubbleDipoleAnalyzerReal.scan_planck_context] of
    [hubble_dipole_real.py].

    Number model.  The program computes on IEEE binary64 numbers.  The
    general theorems are proved over the real numbers of the Standard
    Library, and are restricted to statements that do not lean on exact
    arithmetic: they speak of the quotients, sums and square roots the
    program itself forms, of their order and of the control flow around
    them, which correctly rounded operations on finite numbers preserve.
    Where a property holds over the reals but fails under rounding, module
    [F64] gives the same functions on primitive binary64 numbers and the
    failure is exhibited there by computation.  Infinities and NaN are
    outside both: the data, uncertainties and parameters are finite, and
    uncertainties are positive wherever a theorem divides by them.

    Array model.  A one-dimensional numpy array is a list; a
    two-dimensional one is a list of rows.  The numpy operations that the
    program relies on (broadcasting of binary operations, [linspace],
    [meshgrid], boolean-mask selection, item assignment) are written out
    below with the failures numpy raises. *)

From Stdlib Require Import String.
From Stdlib Require Import PrimFloat.
From Stdlib Require Import Reals Lra Lia ZArith Bool Arith List.
Import ListNotations.

Set Implicit Arguments.

Open Scope R_scope.

Set Warnings "-inexact-float".

(** ** Exceptions and results *)

(** The exceptions the embedded code can raise: the three numpy/Python
    built-ins that matter here, and an opaque failure of the caller's model
    function, identified by a code. *)
Inductive exn : Type :=
| ValueError
| IndexError
| TypeError
| ModelError (code : nat).

Inductive result (A : Type) : Type :=
| Ok (a : A)
| Raise (e : exn).

Arguments Ok {A} a.
Arguments Raise {A} e.

Definition rbind {A B} (r : result A) (f : A -> result B) : result B :=
  match r with
  | Ok a => f a
  | Raise e => Raise e
  end.

Definition is_ok {A} (r : result A) : bool :=
  match r with Ok _ => true | Raise _ => false end.

(** ** numpy on one-dimensional arrays *)

Module Np.

Abbreviation ndarray := (list R) (only parsing).

(** Shapes [(n,)] and [(m,)] broadcast when they are equal or one of them
    is [1]; otherwise numpy raises [ValueError]. *)
Definition broadcast {A} (a b : list A) : result (list A * list A) :=
  if Nat.eqb (length a) (length b) then Ok (a, b)
  else
    match a, b with
    | [x], _ => Ok (repeat x (length b), b)
    | _, [y] => Ok (a, repeat y (length a))
    | _, _ => Raise ValueError
    end.

Fixpoint zip_with {A B C} (f : A -> B -> C) (a : list A) (b : list B)
  : list C :=
  match a, b with
  | x :: a', y :: b' => f x y :: zip_with f a' b'
  | _, _ => []
  end.

(** An elementwise binary operation on two arrays. *)
Definition binop (f : R -> R -> R) (a b : ndarray) : result ndarray :=
  rbind (broadcast a b) (fun '(a', b') => Ok (zip_with f a' b')).

Definition subtract := binop Rminus.
Definition divide := binop Rdiv.

Definition square (a : ndarray) : ndarray := map (fun x => x * x) a.

Definition sum (a : ndarray) : R := fold_right Rplus 0 a.

Definition mean (a : ndarray) : R := sum a / INR (length a).

Definition std (a : ndarray) : R :=
  sqrt (mean (square (map (fun x => x - mean a) a))).

(** [np.arctan2(y, x)] *)
Definition arctan2 (y x : R) : R :=
  if Rlt_dec 0 x then atan (y / x)
  else if Rlt_dec x 0 then
    if Rle_dec 0 y then atan (y / x) + PI else atan (y / x) - PI
  else if Rlt_dec 0 y then PI / 2
  else if Rlt_dec y 0 then - (PI / 2)
  else 0.

(** [a == 1] on one element. *)
Definition eq_one (v : R) : bool :=
  if Req_dec_T v 1 then true else false.

End Np.

(** ** besemer_core.py *)

(** [compute_chi_squared(data, model, errors=None)] *)
Definition compute_chi_squared
    (data model : Np.ndarray) (errors : option Np.ndarray) : result R :=
  rbind (Np.subtract data model) (fun residual =>
  rbind (match errors with
         | Some e => Np.divide residual e
         | None => Ok residual
         end) (fun residual =>
  Ok (Np.sum (Np.square residual)))).

(** [compute_residual_norm(data, model, errors=None)] *)
Definition compute_residual_norm
    (data model : Np.ndarray) (errors : option Np.ndarray) : result R :=
  rbind (Np.subtract data model) (fun residual =>
  rbind (match errors with
         | Some e => Np.divide residual e
         | None => Ok residual
         end) (fun residual =>
  Ok (sqrt (Np.sum (Np.square residual))))).

(** [class BesemerSwitch]: the three attributes set by [__init__]. *)
Record BesemerSwitch : Type := mkSwitch {
  beta : R;
  threshold : R;
  epsilon : R
}.

(** [BesemerSwitch(beta=296, threshold=1.0, epsilon=1e-10)] *)
Definition default_epsilon : R := 1 / 10000000000.

Definition new_switch (b t : R) : BesemerSwitch :=
  mkSwitch b t default_epsilon.

(** [np.where(x >= t, 1, 0)] on one element. *)
Definition where_ge (x t : R) : Z :=
  if Rle_dec t x then 1%Z else 0%Z.

(** [BesemerSwitch.resonance_strength(residual)] on a scalar. *)
Definition resonance_strength (s : BesemerSwitch) (residual : R) : R :=
  let residual_safe := Rmax residual (epsilon s) in
  beta s / residual_safe.

(** [BesemerSwitch.__call__(residual)] on a scalar. *)
Definition call (s : BesemerSwitch) (residual : R) : Z :=
  let residual_safe := Rmax residual (epsilon s) in
  let amplified := beta s / residual_safe in
  where_ge amplified (threshold s).

(** The same two methods on an array: every numpy operation in them is
    elementwise against the scalar attributes. *)
Definition resonance_strength_array
    (s : BesemerSwitch) (residual : Np.ndarray) : Np.ndarray :=
  let residual_safe := map (fun r => Rmax r (epsilon s)) residual in
  map (fun r => beta s / r) residual_safe.

Definition call_array (s : BesemerSwitch) (residual : Np.ndarray) : list Z :=
  let residual_safe := map (fun r => Rmax r (epsilon s)) residual in
  let amplified := map (fun r => beta s / r) residual_safe in
  map (fun a => where_ge a (threshold s)) amplified.

(** [heaviside(x)] *)
Definition heaviside (x : R) : Z := where_ge x 0.

(** ** besemer_core.py on binary64 *)

(** The residual metric once more, on the binary64 numbers numpy computes
    with; every operation is the correctly rounded primitive. *)
Module F64.

Abbreviation ndarray := (list float) (only parsing).

(** An elementwise binary operation on two arrays, with numpy's
    broadcasting. *)
Definition binop (f : float -> float -> float) (a b : ndarray)
  : result ndarray :=
  rbind (Np.broadcast a b) (fun '(a', b') => Ok (Np.zip_with f a' b')).

Definition subtract := binop PrimFloat.sub.
Definition divide := binop PrimFloat.div.

Definition square (a : ndarray) : ndarray :=
  map (fun x => PrimFloat.mul x x) a.

(** [np.sum] on an array of fewer than eight entries, which numpy adds
    from left to right; longer arrays are added in blocks and are not
    covered by this definition. *)
Definition sum (a : ndarray) : float :=
  fold_left PrimFloat.add a 0%float.

(** [compute_chi_squared(data, model, errors=None)] *)
Definition compute_chi_squared
    (data model : ndarray) (errors : option ndarray) : result float :=
  rbind (subtract data model) (fun residual =>
  rbind (match errors with
         | Some e => divide residual e
         | None => Ok residual
         end) (fun residual =>
  Ok (sum (square residual)))).

(** [compute_residual_norm(data, model, errors=None)] *)
Definition compute_residual_norm
    (data model : ndarray) (errors : option ndarray) : result float :=
  rbind (subtract data model) (fun residual =>
  rbind (match errors with
         | Some e => divide residual e
         | None => Ok residual
         end) (fun residual =>
  Ok (PrimFloat.sqrt (sum (square residual))))).

End F64.

(** ** numpy grids *)

Module Grid.

Definition field := list (list R).

(** [np.linspace(start, stop, num)] with the default [endpoint=True]:
    [arange(num) * step + start], the last sample overwritten by [stop]
    when [num > 1]; a negative [num] raises [ValueError]. *)
Definition linspace (start stop : R) (num : Z) : result Np.ndarray :=
  if (num <? 0)%Z then Raise ValueError
  else
    let n := Z.to_nat num in
    let div := (n - 1)%nat in
    let delta := stop - start in
    let y := map INR (seq 0 n) in
    let y := if (0 <? div)%nat
             then map (fun v => v * (delta / INR div)) y
             else map (fun v => v * delta) y in
    let y := map (fun v => v + start) y in
    Ok (if (1 <? n)%nat then removelast y ++ [stop] else y).

(** [np.zeros(n)] *)
Definition zeros (num : Z) : result Np.ndarray :=
  if (num <? 0)%Z then Raise ValueError
  else Ok (repeat 0 (Z.to_nat num)).

(** [np.meshgrid(x, y)] with the default [indexing='xy']: both outputs
    have [len(y)] rows and [len(x)] columns. *)
Definition meshgrid (x y : Np.ndarray) : field * field :=
  (map (fun _ => x) y, map (fun yj => map (fun _ => yj) x) y).

(** [np.zeros_like(g)] *)
Definition zeros_like (g : field) : field := map (map (fun _ => 0)) g.

(** [range(n)] *)
Definition range (n : Z) : list nat := seq 0 (Z.to_nat n).

(** [enumerate(a)] *)
Definition enumerate (a : Np.ndarray) : list (nat * R) :=
  combine (seq 0 (length a)) a.

(** [a[i]] and [a[i] = v] for a non-negative index; out of range raises
    [IndexError]. *)
Definition getitem (a : Np.ndarray) (i : nat) : result R :=
  match nth_error a i with
  | Some v => Ok v
  | None => Raise IndexError
  end.

(** The list [a] with position [i] overwritten by [v]. *)
Definition update {A} (a : list A) (i : nat) (v : A) : list A :=
  firstn i a ++ v :: skipn (S i) a.

Definition setitem (a : Np.ndarray) (i : nat) (v : R) : result Np.ndarray :=
  if (i <? length a)%nat then Ok (update a i v)
  else Raise IndexError.

(** [g[j, i]] and [g[j, i] = v] *)
Definition getitem2 (g : field) (j i : nat) : result R :=
  match nth_error g j with
  | Some row => getitem row i
  | None => Raise IndexError
  end.

Definition setitem2 (g : field) (j i : nat) (v : R) : result field :=
  match nth_error g j with
  | Some row =>
      rbind (setitem row i v) (fun row' => Ok (update g j row'))
  | None => Raise IndexError
  end.

(** [g.size] and [len(a)] *)
Definition size (g : field) : nat := length (concat g).

(** [g] has [rows] rows of [cols] entries each. *)
Definition has_shape (g : field) (rows cols : nat) : Prop :=
  length g = rows /\ Forall (fun row => length row = cols) g.

(** [g[mask]] for a boolean mask: the entries of [g] where the mask
    holds, in row-major order; the shapes must agree, else [IndexError]. *)
Definition select (g : field) (mask : list (list bool))
  : result Np.ndarray :=
  if list_eq_dec Nat.eq_dec (map (@length R) g) (map (@length bool) mask)
  then Ok (map fst (filter snd (combine (concat g) (concat mask))))
  else Raise IndexError.

End Grid.

(** ** scanner.py *)

(** [class LatencyFreeScanner].  The caller's [model_func] receives its
    positional arguments as a list (one for [scan_1d], two for [scan_2d])
    and either returns a prediction array or raises. *)
Record LatencyFreeScanner : Type := mkScanner {
  model_func : list R -> result Np.ndarray;
  data : Np.ndarray;
  errors : option Np.ndarray;
  switch : BesemerSwitch;
  grid_points : option (Grid.field * Grid.field);
  switch_values : option Grid.field;
  resonance_values : option Grid.field
}.

(** [LatencyFreeScanner.__init__] *)
Definition new_scanner (f : list R -> result Np.ndarray) (d : Np.ndarray)
    (e : option Np.ndarray) (b t : R) : LatencyFreeScanner :=
  mkScanner f d e (new_switch b t) None None None.

(** The state a scan runs in: the scanner object, whose attributes a method
    may reassign, and the trace of the argument lists [model_func] has been
    invoked with so far.  Messages written by [print] are not modelled. *)
Record world : Type := mkWorld {
  self : LatencyFreeScanner;
  calls : list (list R)
}.

(** Computations that read and update the world and may raise; the world
    reached when an exception escapes is kept. *)
Definition M (A : Type) : Type := world -> result A * world.

Definition ret {A} (a : A) : M A := fun w => (Ok a, w).

Definition bind {A B} (m : M A) (f : A -> M B) : M B :=
  fun w =>
    match m w with
    | (Ok a, w') => f a w'
    | (Raise e, w') => (Raise e, w')
    end.

Definition lift {A} (r : result A) : M A := fun w => (r, w).

Definition get_self : M LatencyFreeScanner := fun w => (Ok (self w), w).

Notation "x <- m ;; k" := (bind m (fun x => k))
  (at level 61, m at next level, right associativity).
Notation "' pat <- m ;; k" := (bind m (fun x => match x with pat => k end))
  (at level 61, pat pattern, m at next level, right associativity).

(** A call of [self.model_func] on the positional arguments [args]. *)
Definition call_model (args : list R) : M Np.ndarray :=
  fun w => (model_func (self w) args,
            mkWorld (self w) (calls w ++ [args])).

(** The three assignments that close [scan_2d]. *)
Definition store_results (g : Grid.field * Grid.field)
    (sw rs : Grid.field) : M unit :=
  fun w =>
    let s := self w in
    (Ok tt,
     mkWorld (mkScanner (model_func s) (data s) (errors s) (switch s)
                        (Some g) (Some sw) (Some rs))
             (calls w)).

(** A [for] loop over [xs] threading the loop-carried variables [s]. *)
Fixpoint for_each {B S} (xs : list B) (body : B -> S -> M S) (s : S) : M S :=
  match xs with
  | [] => ret s
  | x :: xs' => s' <- body x s ;; for_each xs' body s'
  end.

(** The body of the loop of [scan_1d], on the item [(i, param)] of
    [enumerate(params)] and the two arrays being filled. *)
Definition scan_1d_body (item : nat * R) (acc : Np.ndarray * Np.ndarray)
  : M (Np.ndarray * Np.ndarray) :=
  let '(i, param) := item in
  let '(switches, resonances) := acc in
  model <- call_model [param] ;;
  this <- get_self ;;
  residual <- lift (compute_residual_norm (data this) model (errors this)) ;;
  switches <- lift (Grid.setitem switches i
                      (IZR (call (switch this) residual))) ;;
  resonances <- lift (Grid.setitem resonances i
                        (resonance_strength (switch this) residual)) ;;
  ret (switches, resonances).

(** [LatencyFreeScanner.scan_1d(param_range, n_points)] *)
Definition scan_1d (param_range : R * R) (n_points : Z)
  : M (Np.ndarray * Np.ndarray * Np.ndarray) :=
  params <- lift (Grid.linspace (fst param_range) (snd param_range) n_points) ;;
  switches <- lift (Grid.zeros n_points) ;;
  resonances <- lift (Grid.zeros n_points) ;;
  '(switches, resonances) <-
    for_each (Grid.enumerate params) scan_1d_body (switches, resonances) ;;
  ret (params, switches, resonances).

(** The body of the inner loop of [scan_2d], at column [i] and row [j]. *)
Definition scan_2d_body (grid1 grid2 : Grid.field) (i j : nat)
    (acc : Grid.field * Grid.field) : M (Grid.field * Grid.field) :=
  let '(switches, resonances) := acc in
  x <- lift (Grid.getitem2 grid1 j i) ;;
  y <- lift (Grid.getitem2 grid2 j i) ;;
  model <- call_model [x; y] ;;
  this <- get_self ;;
  residual <- lift (compute_residual_norm (data this) model (errors this)) ;;
  switches <- lift (Grid.setitem2 switches j i
                      (IZR (call (switch this) residual))) ;;
  resonances <- lift (Grid.setitem2 resonances j i
                        (resonance_strength (switch this) residual)) ;;
  ret (switches, resonances).

(** [LatencyFreeScanner.scan_2d(param1_range, param2_range, n_points)] *)
Definition scan_2d (param1_range param2_range : R * R) (n_points : Z * Z)
  : M (Grid.field * Grid.field * Grid.field * Grid.field) :=
  param1 <- lift (Grid.linspace (fst param1_range) (snd param1_range)
                    (fst n_points)) ;;
  param2 <- lift (Grid.linspace (fst param2_range) (snd param2_range)
                    (snd n_points)) ;;
  let '(grid1, grid2) := Grid.meshgrid param1 param2 in
  let switches := Grid.zeros_like grid1 in
  let resonances := Grid.zeros_like grid1 in
  '(switches, resonances) <-
    for_each (Grid.range (fst n_points))
      (fun i =>
         for_each (Grid.range (snd n_points)) (scan_2d_body grid1 grid2 i))
      (switches, resonances) ;;
  _ <- store_results (grid1, grid2) switches resonances ;;
  ret (grid1, grid2, switches, resonances).

(** ** Vocabulary for the scan properties *)

(** The world after [model_func] has been invoked on each argument list of
    [l] in turn. *)
Definition log_calls (l : list (list R)) (w : world) : world :=
  mkWorld (self w) (calls w ++ l).

(** What one grid point contributes to a scan: the switch value, as the
    float it is stored as, and the resonance strength, both from the
    residual norm of the model's prediction at [args]. *)
Definition evaluate_point (this : LatencyFreeScanner) (args : list R)
  : result (R * R) :=
  rbind (model_func this args) (fun model =>
  rbind (compute_residual_norm (data this) model (errors this))
    (fun residual =>
  Ok (IZR (call (switch this) residual),
      resonance_strength (switch this) residual))).

(** The body of a scan loop succeeds on item [x]: the one model call it
    makes, on [point x], is logged, the scanner is untouched and the
    invariant [Inv] of the loop-carried variables extends to [x]. *)
Definition step_ok {B S} (this : LatencyFreeScanner) (point : B -> list R)
    (Inv : list B -> S -> Prop) (body : B -> S -> M S) (x : B) : Prop :=
  forall done s w,
    Inv done s -> self w = this ->
    exists s',
      body x s w = (Ok s', log_calls [point x] w)
      /\ Inv (done ++ [x]) s'.

(** The arrays of [scan_1d] after the items [done]: both keep the length
    of [params], and every index processed holds the values of its grid
    point. *)
Definition filled_1d (this : LatencyFreeScanner) (params : Np.ndarray)
    (done : list (nat * R)) (acc : Np.ndarray * Np.ndarray) : Prop :=
  length (fst acc) = length params
  /\ length (snd acc) = length params
  /\ forall i, In i (map fst done) ->
       exists p b r,
         nth_error params i = Some p
         /\ evaluate_point this [p] = Ok (b, r)
         /\ nth_error (fst acc) i = Some b
         /\ nth_error (snd acc) i = Some r.

(** The fields of [scan_2d] after the index pairs [done] (column index of
    the first parameter, row index of the second): both keep the shape of
    the meshgrid, and every entry processed holds the values of its grid
    point. *)
Definition filled_2d (this : LatencyFreeScanner) (param1 param2 : Np.ndarray)
    (done : list (nat * nat)) (acc : Grid.field * Grid.field) : Prop :=
  Grid.has_shape (fst acc) (length param2) (length param1)
  /\ Grid.has_shape (snd acc) (length param2) (length param1)
  /\ forall i j, In (i, j) done ->
       exists x y b r,
         nth_error param1 i = Some x
         /\ nth_error param2 j = Some y
         /\ evaluate_point this [x; y] = Ok (b, r)
         /\ Grid.getitem2 (fst acc) j i = Ok b
         /\ Grid.getitem2 (snd acc) j i = Ok r.

(** The grid point at column [i] and row [j]. *)
Definition point_2d (param1 param2 : Np.ndarray) (ij : nat * nat) : list R :=
  [nth (fst ij) param1 0; nth (snd ij) param2 0].

(** The argument lists of a one-dimensional scan, in loop order. *)
Definition scan_order_1d (params : Np.ndarray) : list (list R) :=
  map (fun p => [p]) params.

(** The argument lists of a two-dimensional scan, in loop order: the first
    parameter in the outer loop, the second in the inner one. *)
Definition scan_order_2d (param1 param2 : Np.ndarray) : list (list R) :=
  map (fun xy => [fst xy; snd xy]) (list_prod param1 param2).

(** Boolean masks over a two-dimensional grid. *)
Module Mask.

Definition mask := list (list bool).

(** [field == 1] *)
Definition eq_one (g : Grid.field) : mask := map (map Np.eq_one) g.

(** [np.sum(mask)]: the number of [True] entries. *)
Definition count (m : mask) : Z :=
  Z.of_nat (length (filter (fun b => b) (concat m))).

(** [np.any(mask)] *)
Definition any (m : mask) : bool := existsb (fun b => b) (concat m).

(** [m1 & m2], broadcasting rows and then columns. *)
Definition and (m1 m2 : mask) : result mask :=
  rbind (Np.broadcast m1 m2) (fun '(a, b) =>
    fold_right
      (fun '(r1, r2) acc =>
         rbind (Np.broadcast r1 r2) (fun '(x, y) =>
         rbind acc (fun rows => Ok (Np.zip_with andb x y :: rows))))
      (Ok []) (combine a b)).

End Mask.

(** Values stored in the dictionaries the analysis methods return. *)
Inductive pyval : Type :=
| PyNone
| PyInt (z : Z)
| PyFloat (r : R)
| PyTuple (a b : R).

(** A Python [dict] with string keys, in insertion order. *)
Definition dict := list (string * pyval).

Fixpoint dict_get (d : dict) (k : string) : option pyval :=
  match d with
  | [] => None
  | (k', v) :: d' => if String.eqb k k' then Some v else dict_get d' k
  end.

(** [d[k] = v] *)
Fixpoint dict_set (d : dict) (k : string) (v : pyval) : dict :=
  match d with
  | [] => [(k, v)]
  | (k', v') :: d' =>
      if String.eqb k k' then (k, v) :: d' else (k', v') :: dict_set d' k v
  end.

(** [LatencyFreeScanner.find_manifold()] *)
Definition find_manifold (this : LatencyFreeScanner)
  : result (Np.ndarray * Np.ndarray) :=
  match switch_values this with
  | None => Raise ValueError
  | Some sv =>
      let mask := Mask.eq_one sv in
      match grid_points this with
      | None => Raise TypeError
      | Some (grid1, grid2) =>
          rbind (Grid.select grid1 mask) (fun manifold_param1 =>
          rbind (Grid.select grid2 mask) (fun manifold_param2 =>
          Ok (manifold_param1, manifold_param2)))
      end
  end.

(** [LatencyFreeScanner.analyze_geometry()] *)
Definition analyze_geometry (this : LatencyFreeScanner) : result dict :=
  match switch_values this with
  | None => Raise ValueError
  | Some sv =>
      let n_resonant := Mask.count (Mask.eq_one sv) in
      let total := Grid.size sv in
      let fraction := IZR n_resonant / INR total in
      rbind (find_manifold this) (fun '(manifold_param1, manifold_param2) =>
      let result :=
        [("n_resonant_points", PyInt n_resonant);
         ("total_points", PyInt (Z.of_nat total));
         ("resonance_fraction", PyFloat fraction);
         ("manifold_size", PyInt (Z.of_nat (length manifold_param1)))]%string in
      let result :=
        if (0 <? length manifold_param1)%nat then
          let result := dict_set result "param1_mean"
                          (PyFloat (Np.mean manifold_param1)) in
          let result := dict_set result "param1_std"
                          (PyFloat (Np.std manifold_param1)) in
          let result := dict_set result "param2_mean"
                          (PyFloat (Np.mean manifold_param2)) in
          dict_set result "param2_std" (PyFloat (Np.std manifold_param2))
        else result in
      Ok result)
  end.

(** ** hubble_dipole.py *)

(** Truth value of a dictionary entry: [None] is false, a pair is true. *)
Definition truthy (v : option pyval) : bool :=
  match v with
  | Some (PyTuple _ _) => true
  | Some (PyInt z) => negb (Z.eqb z 0)
  | Some (PyFloat r) => negb (if Req_dec_T r 0 then true else false)
  | _ => false
  end.

(** One of the two guarded blocks that locate a pole: when the mask has a
    resonant point, the entry [key] becomes the centroid of the selected
    coordinates. *)
Definition locate_pole (key : string) (mask : Mask.mask)
    (grid_H0 grid_Om0 : Grid.field) (d : dict) : result dict :=
  if Mask.any mask then
    rbind (Grid.select grid_H0 mask) (fun h0 =>
    rbind (Grid.select grid_Om0 mask) (fun om0 =>
    Ok (dict_set d key (PyTuple (Np.mean h0) (Np.mean om0)))))
  else Ok d.

(** [HubbleDipoleAnalyzer.find_dipole_structure(planck_switches,
    supernova_switches, grid_H0, grid_Om0)] *)
Definition find_dipole_structure
    (planck_switches supernova_switches grid_H0 grid_Om0 : Grid.field)
  : result dict :=
  let planck_mask := Mask.eq_one planck_switches in
  let supernova_mask := Mask.eq_one supernova_switches in
  let result :=
    [("planck_pole", PyNone); ("supernova_pole", PyNone);
     ("dipole_distance", PyNone); ("dipole_angle", PyNone);
     ("overlap", PyNone)]%string in
  rbind (locate_pole "planck_pole" planck_mask grid_H0 grid_Om0 result)
    (fun result =>
  rbind (locate_pole "supernova_pole" supernova_mask grid_H0 grid_Om0 result)
    (fun result =>
  if truthy (dict_get result "planck_pole")
     && truthy (dict_get result "supernova_pole")
  then
    match dict_get result "planck_pole", dict_get result "supernova_pole" with
    | Some (PyTuple p1x p1y), Some (PyTuple p2x p2y) =>
        let dx := p2x - p1x in
        let dy := p2y - p1y in
        let result := dict_set result "dipole_distance"
                        (PyFloat (sqrt (dx * dx + dy * dy))) in
        let result := dict_set result "dipole_angle"
                        (PyFloat (Np.arctan2 dy dx * 180 / PI)) in
        rbind (Mask.and planck_mask supernova_mask) (fun overlap_mask =>
        Ok (dict_set result "overlap" (PyInt (Mask.count overlap_mask))))
    | _, _ => Raise TypeError
    end
  else Ok result)).

(** ** besemer_core.py: the likelihood wrapper *)

(** [class BesemerLikelihood]: the data, the optional uncertainties and the
    switch built by [__init__] (with the default floor). *)
Module Likelihood.

Record BesemerLikelihood : Type := mk {
  data : Np.ndarray;
  errors : option Np.ndarray;
  switch : BesemerSwitch
}.

(** [BesemerLikelihood(data, errors, beta, threshold)] *)
Definition new (d : Np.ndarray) (e : option Np.ndarray) (b t : R)
  : BesemerLikelihood :=
  mk d e (new_switch b t).

(** [BesemerLikelihood.__call__(model)] *)
Definition evaluate (this : BesemerLikelihood) (model : Np.ndarray)
  : result Z :=
  rbind (compute_residual_norm (data this) model (errors this))
    (fun residual_norm => Ok (call (switch this) residual_norm)).

(** [BesemerLikelihood.resonance_map(model)] *)
Definition resonance_map (this : BesemerLikelihood) (model : Np.ndarray)
  : result R :=
  rbind (compute_residual_norm (data this) model (errors this))
    (fun residual_norm =>
       Ok (resonance_strength (switch this) residual_norm)).

End Likelihood.

(** ** real_data_loader.py: the Planck constraints *)

(** [class PlanckCMBData]: the three best-fit values set by [__init__]. *)
Module PlanckCMBData.

Record t : Type := mk {
  fiducial_H0 : R;
  fiducial_Om0 : R;
  fiducial_Ob0 : R
}.

(** [PlanckCMBData()] *)
Definition init : t := mk (6736 / 100) (3153 / 10000) (4930 / 100000).

(** [PlanckCMBData.compute_chi_squared_simple(H0, Om0)] *)
Definition compute_chi_squared_simple (this : t) (H0 Om0 : R) : R :=
  let sigma_H0 := 54 / 100 in
  let sigma_Om0 := 73 / 10000 in
  let chi2_H0 := Rsqr ((H0 - fiducial_H0 this) / sigma_H0) in
  let chi2_Om0 := Rsqr ((Om0 - fiducial_Om0 this) / sigma_Om0) in
  let chi2 := chi2_H0 + chi2_Om0 in
  chi2.

(** [PlanckCMBData.compute_residual_norm(H0, Om0)] *)
Definition compute_residual_norm (this : t) (H0 Om0 : R) : R :=
  let chi2 := compute_chi_squared_simple this H0 Om0 in
  sqrt chi2.

End PlanckCMBData.

(** ** hubble_dipole_real.py: the Planck context scan *)

(** A [for] loop that threads the loop-carried variables [s] and stops at
    the first exception; it touches no scanner. *)
Fixpoint loop {B S} (xs : list B) (body : B -> S -> result S) (s : S)
  : result S :=
  match xs with
  | [] => Ok s
  | x :: xs' => rbind (body x s) (loop xs' body)
  end.

(** [class HubbleDipoleAnalyzerReal]: the switch parameters and the Planck
    constraints.  The Pantheon+ sample, read from a file and compared
    through an external cosmology package, is left out. *)
Module HubbleDipoleAnalyzerReal.

Record t : Type := mk {
  beta : R;
  threshold : R;
  planck : PlanckCMBData.t
}.

(** [np.zeros((rows, cols))] *)
Definition zeros2 (rows cols : nat) : Grid.field :=
  repeat (repeat 0 cols) rows.

(** [HubbleDipoleAnalyzerReal.scan_planck_context(H0_range, Om_range)] *)
Definition scan_planck_context (this : t) (H0_range Om_range : Np.ndarray)
  : result (Grid.field * Grid.field) :=
  let n_H0 := length H0_range in
  let n_Om := length Om_range in
  let switch_map := zeros2 n_H0 n_Om in
  let resonance_map := zeros2 n_H0 n_Om in
  let switch := new_switch (beta this) (threshold this) in
  loop (Grid.enumerate H0_range)
    (fun '(i, H0) =>
       loop (Grid.enumerate Om_range)
         (fun '(j, Om) '(switch_map, resonance_map) =>
            let residual :=
              PlanckCMBData.compute_residual_norm (planck this) H0 Om in
            rbind (Grid.setitem2 switch_map i j (IZR (call switch residual)))
              (fun switch_map =>
            rbind (Grid.setitem2 resonance_map i j
                     (resonance_strength switch residual))
              (fun resonance_map =>
            Ok (switch_map, resonance_map)))))
    (switch_map, resonance_map).

End HubbleDipoleAnalyzerReal.

(** ** Vocabulary for the properties of the summaries *)

(** The entries of a field selected by a mask of the same shape, in
    row-major order. *)
Definition selected (g : Grid.field) (m : Mask.mask) : Np.ndarray :=
  map fst (filter snd (combine (concat g) (concat m))).

(** The number of [True] entries of a mask. *)
Definition count_true (m : Mask.mask) : nat :=
  length (filter (fun b => b) (concat m)).

(** The invariant of the loops of [scan_planck_context] after the index
    pairs [done]: the map keeps its shape and every entry processed holds
    [value] at its row and column. *)
Definition filled_map (rows cols : nat) (value : nat -> nat -> R)
    (done : list (nat * nat)) (m : Grid.field) : Prop :=
  Grid.has_shape m rows cols
  /\ forall i j, In (i, j) done -> Grid.getitem2 m i j = Ok (value i j).

(** ** Concrete inputs used by the examples *)

(** A switch with the default amplification and floor whose threshold is so
    high that [beta / threshold] lies below the floor. *)
Definition strict_switch : BesemerSwitch :=
  mkSwitch 296 10000000000000 default_epsilon.

(** [BesemerSwitch()] with every default. *)
Definition default_switch : BesemerSwitch := new_switch 296 1.

(** [BesemerSwitch(beta=296, threshold=100.0)], the switch of
    [test_switch]. *)
Definition test_switch : BesemerSwitch := new_switch 296 100.

(** A scanner whose last two-by-two scan found no resonant point. *)
Definition quiet_scanner : LatencyFreeScanner :=
  mkScanner (fun _ => Ok [0]) [4] None default_switch
            (Some ([[1; 2]; [1; 2]], [[3; 3]; [4; 4]]))
            (Some [[0; 0]; [0; 0]])
            (Some [[0; 0]; [0; 0]]).

(** A fresh scanner, in a world where the model has not been called yet,
    on a model that returns the same one-point prediction everywhere. *)
Definition steady_world : world :=
  mkWorld (new_scanner (fun _ => Ok [0]) [4] None 296 1) [].

(** A model that raises whenever its first argument is 1 and otherwise
    predicts that argument. *)
Definition fragile_model (args : list R) : result Np.ndarray :=
  match args with
  | x :: _ => if Req_dec_T x 1 then Raise (ModelError 7) else Ok [x]
  | [] => Raise TypeError
  end.

Definition fragile_world : world :=
  mkWorld (new_scanner fragile_model [4] None 296 1) [].

(** A model whose prediction has three entries everywhere except where
    its first argument is 1, where it has two. *)
Definition ragged_model (args : list R) : result Np.ndarray :=
  match args with
  | x :: _ => if Req_dec_T x 1 then Ok [x; x] else Ok [x; x; x]
  | [] => Raise TypeError
  end.

Definition ragged_world : world :=
  mkWorld (new_scanner ragged_model [4; 5; 6] None 296 1) [].

(** A scanner whose last two-by-two scan found two resonant points, on the
    diagonal from the upper right to the lower left. *)
Definition lit_scanner : LatencyFreeScanner :=
  mkScanner (fun _ => Ok [0]) [4] None default_switch
            (Some ([[1; 2]; [1; 2]], [[3; 3]; [4; 4]]))
            (Some [[0; 1]; [1; 0]])
            (Some [[5; 296]; [296; 5]]).

(** * Properties *)

(** ** Arithmetic helpers *)

Lemma div_le_div_l (b x y : R) : 0 <= b -> 0 < x -> x <= y -> b / y <= b / x.
Proof.
  intros Hb Hx Hxy. unfold Rdiv.
  apply Rmult_le_compat_l; [exact Hb |].
  apply Rinv_le_contravar; assumption.
Qed.

Lemma Rmax_floor_pos (r e : R) : 0 < e -> 0 < Rmax r e.
Proof. intro H. apply Rlt_le_trans with e; [exact H | apply Rmax_r]. Qed.

Lemma Rmax_floor (r e : R) : r <= e -> Rmax r e = e.
Proof. intro H. unfold Rmax. destruct (Rle_dec r e); lra. Qed.

Lemma Rmax_above (r e : R) : e <= r -> Rmax r e = r.
Proof. intro H. unfold Rmax. destruct (Rle_dec r e); lra. Qed.

Lemma where_ge_one (x t : R) : where_ge x t = 1%Z <-> t <= x.
Proof.
  unfold where_ge. destruct (Rle_dec t x); split; intro H;
    try reflexivity; try assumption; try discriminate; contradiction.
Qed.

Lemma where_ge_zero (x t : R) : where_ge x t = 0%Z <-> ~ t <= x.
Proof.
  unfold where_ge. destruct (Rle_dec t x); split; intro H;
    try reflexivity; try assumption; try discriminate; contradiction.
Qed.

Lemma where_ge_binary (x t : R) : where_ge x t = 0%Z \/ where_ge x t = 1%Z.
Proof. unfold where_ge. destruct (Rle_dec t x); auto. Qed.

(** ** The switch *)

(** Closes an arithmetic goal about the attributes of a concrete switch. *)
Ltac switch_arith :=
  unfold test_switch, default_switch, strict_switch, new_switch,
    default_epsilon in *;
  simpl in *; lra.

Lemma call_where (s : BesemerSwitch) (r : R) :
  call s r = where_ge (resonance_strength s r) (threshold s).
Proof. reflexivity. Qed.

Lemma call_array_map (s : BesemerSwitch) (rs : Np.ndarray) :
  call_array s rs = map (call s) rs.
Proof. unfold call_array. rewrite !map_map. reflexivity. Qed.

Lemma resonance_strength_array_map (s : BesemerSwitch) (rs : Np.ndarray) :
  resonance_strength_array s rs = map (resonance_strength s) rs.
Proof. unfold resonance_strength_array. rewrite map_map. reflexivity. Qed.

(** C1, as stated, fails below the floor: with beta = 296, epsilon = 1e-10
    and threshold = 1e13 the residual 1e-11 is positive and at most
    beta / threshold = 2.96e-11, yet the floored residual 1e-10 gives
    296 / 1e-10 = 2.96e12 < 1e13 and the decision is 0. *)
Lemma call_below_floor_counterexample :
  0 < 1 / 100000000000
  /\ 1 / 100000000000 <= beta strict_switch / threshold strict_switch
  /\ call strict_switch (1 / 100000000000) = 0%Z.
Proof.
  split; [lra |]. split.
  - unfold strict_switch; simpl. lra.
  - rewrite call_where. apply where_ge_zero.
    unfold resonance_strength, strict_switch, default_epsilon; simpl.
    rewrite Rmax_floor by lra. lra.
Qed.

(** C1 (amended): the decision is 1 exactly when the quotient the code
    forms, beta / max(r, epsilon), is at least the threshold, and 0
    otherwise; so for r >= epsilon it is 1 exactly when beta / r >=
    threshold, and for r <= epsilon exactly when beta / epsilon >=
    threshold. *)
Theorem call_one_iff_quotient_reaches_threshold (s : BesemerSwitch) (r : R) :
  (call s r = 1%Z <-> beta s / Rmax r (epsilon s) >= threshold s)
  /\ (call s r = 0%Z <-> ~ beta s / Rmax r (epsilon s) >= threshold s)
  /\ (epsilon s <= r ->
      (call s r = 1%Z <-> beta s / r >= threshold s)
      /\ (call s r = 0%Z <-> ~ beta s / r >= threshold s))
  /\ (r <= epsilon s ->
      (call s r = 1%Z <-> beta s / epsilon s >= threshold s)
      /\ (call s r = 0%Z <-> ~ beta s / epsilon s >= threshold s)).
Proof.
  assert (A : call s r = 1%Z <-> beta s / Rmax r (epsilon s) >= threshold s).
  { rewrite call_where, where_ge_one. unfold resonance_strength.
    split; intro H; [apply Rle_ge | apply Rge_le]; exact H. }
  assert (B : call s r = 0%Z
              <-> ~ beta s / Rmax r (epsilon s) >= threshold s).
  { rewrite call_where, where_ge_zero. unfold resonance_strength.
    split; intros H G; apply H; [apply Rge_le | apply Rle_ge]; exact G. }
  split; [exact A |]. split; [exact B |]. split; intro H.
  - rewrite (Rmax_above H) in A, B. split; assumption.
  - rewrite (Rmax_floor H) in A, B. split; assumption.
Qed.

Lemma call_one_iff_quotient_reaches_threshold_witness :
  epsilon test_switch <= 2 /\ call test_switch 2 = 1%Z.
Proof.
  assert (He : epsilon test_switch <= 2) by switch_arith.
  split; [exact He |].
  destruct (call_one_iff_quotient_reaches_threshold test_switch 2)
    as (_ & _ & A & _).
  apply (A He). switch_arith.
Defined.




(** C5: on a scalar and on every element of an array, the switch output is
    exactly 0 or 1, and it is 1 if and only if the resonance strength of the
    same input is at least the threshold (equality included). *)
Theorem call_binary_iff_strength_ge_threshold
    (s : BesemerSwitch) (r : R) (rs : Np.ndarray) :
  ((call s r = 0%Z \/ call s r = 1%Z)
   /\ (call s r = 1%Z <-> resonance_strength s r >= threshold s))
  /\ length (call_array s rs) = length rs
  /\ Forall2 (fun out strength =>
                (out = 0%Z \/ out = 1%Z)
                /\ (out = 1%Z <-> strength >= threshold s))
             (call_array s rs) (resonance_strength_array s rs).
Proof.
  assert (P : forall x,
             (call s x = 0%Z \/ call s x = 1%Z)
             /\ (call s x = 1%Z <-> resonance_strength s x >= threshold s)).
  { intro x. rewrite call_where. split; [apply where_ge_binary |].
    rewrite where_ge_one. split; intro H; [apply Rle_ge | apply Rge_le];
      exact H. }
  split; [apply P |].
  rewrite call_array_map, resonance_strength_array_map, length_map.
  split; [reflexivity |].
  induction rs as [| x rs IH]; simpl; constructor; [apply P | exact IH].
Qed.

(** C6: a residual at or below the floor has resonance strength exactly
    beta / epsilon. *)
Theorem resonance_strength_saturates (s : BesemerSwitch) (r : R) :
  r <= epsilon s ->
  resonance_strength s r = beta s / epsilon s.
Proof.
  intro H. unfold resonance_strength. rewrite (Rmax_floor H). reflexivity.
Qed.

Lemma resonance_strength_saturates_witness :
  0 <= epsilon default_switch
  /\ resonance_strength default_switch 0
     = beta default_switch / epsilon default_switch.
Proof.
  assert (H : 0 <= epsilon default_switch) by switch_arith.
  split; [exact H | exact (resonance_strength_saturates default_switch H)].
Defined.

(** C10: every residual at or below the floor, negative ones included, is
    treated exactly as the floor: strength beta / epsilon, decision 1 iff
    beta / epsilon >= threshold.  Both methods are total, so nothing is
    rejected; the result is the same for every residual at or below the
    floor, whatever its sign or magnitude, so no absolute value is taken:
    where -r is at or above the floor its strength is beta / (-r), not
    that of r, and with the default switch the residual -5 does not get
    the strength of 5. *)
Theorem floor_treats_low_residual_as_epsilon (s : BesemerSwitch) (r : R) :
  r <= epsilon s ->
  resonance_strength s r = beta s / epsilon s
  /\ (call s r = 1%Z <-> beta s / epsilon s >= threshold s)
  /\ (call s r = 0%Z <-> ~ beta s / epsilon s >= threshold s)
  /\ resonance_strength s r = resonance_strength s (epsilon s)
  /\ call s r = call s (epsilon s)
  /\ (forall r', r' <= epsilon s ->
        resonance_strength s r' = resonance_strength s r
        /\ call s r' = call s r)
  /\ (epsilon s <= - r -> resonance_strength s (- r) = beta s / (- r))
  /\ resonance_strength default_switch (-5)
     <> resonance_strength default_switch 5.
Proof.
  intro H.
  assert (F : forall x, x <= epsilon s ->
                resonance_strength s x = beta s / epsilon s).
  { intros x Hx. unfold resonance_strength. rewrite (Rmax_floor Hx).
    reflexivity. }
  pose proof (F r H) as E.
  assert (E' : resonance_strength s (epsilon s) = beta s / epsilon s)
    by (apply F; lra).
  split; [exact E |].
  split.
  { rewrite call_where, where_ge_one, E. split; intro G;
      [apply Rle_ge | apply Rge_le]; exact G. }
  split.
  { rewrite call_where, where_ge_zero, E. split; intros G G';
      apply G; [apply Rge_le | apply Rle_ge]; exact G'. }
  split; [rewrite E, E'; reflexivity |].
  split; [rewrite !call_where, E, E'; reflexivity |].
  split.
  { intros r' H'. rewrite !call_where, E, (F r' H'). split; reflexivity. }
  split.
  { intro Hn. unfold resonance_strength. rewrite (Rmax_above Hn).
    reflexivity. }
  unfold resonance_strength, default_switch, new_switch, default_epsilon.
  simpl. rewrite Rmax_floor by lra. rewrite Rmax_above by lra. lra.
Qed.

Lemma floor_treats_low_residual_as_epsilon_witness :
  -5 <= epsilon default_switch
  /\ resonance_strength default_switch (-5)
     = beta default_switch / epsilon default_switch
  /\ call default_switch (-5) = call default_switch (epsilon default_switch).
Proof.
  assert (H : -5 <= epsilon default_switch) by switch_arith.
  destruct (floor_treats_low_residual_as_epsilon default_switch H)
    as (A & _ & _ & _ & B & _).
  split; [exact H |]. split; [exact A | exact B].
Defined.

(** ** The residual metric *)

Lemma broadcast_same {A} (a b : list A) :
  length a = length b -> Np.broadcast a b = Ok (a, b).
Proof.
  intro H. unfold Np.broadcast.
  rewrite (proj2 (Nat.eqb_eq _ _) H). reflexivity.
Qed.

Lemma broadcast_mismatch {A} (a b : list A) :
  length a <> length b -> length a <> 1%nat -> length b <> 1%nat ->
  Np.broadcast a b = Raise ValueError.
Proof.
  intros Hab Ha Hb. unfold Np.broadcast.
  rewrite (proj2 (Nat.eqb_neq _ _) Hab).
  destruct a as [| x [| x' a]]; destruct b as [| y [| y' b]];
    simpl in *; try reflexivity; congruence.
Qed.

Lemma zip_with_length {A B C} (f : A -> B -> C) (a : list A) (b : list B) :
  length a = length b -> length (Np.zip_with f a b) = length a.
Proof.
  revert b. induction a as [| x a IH]; intros [| y b] H; simpl in *;
    try reflexivity; try discriminate.
  f_equal. apply IH. congruence.
Qed.

Lemma binop_same (f : R -> R -> R) (a b : Np.ndarray) :
  length a = length b -> Np.binop f a b = Ok (Np.zip_with f a b).
Proof. intro H. unfold Np.binop. rewrite (broadcast_same _ _ H). reflexivity. Qed.

Lemma sum_square_nonneg (a : Np.ndarray) : 0 <= Np.sum (Np.square a).
Proof.
  induction a as [| x a IH]; simpl; [lra |].
  pose proof (Rle_0_sqr x) as Hx. unfold Rsqr in Hx. lra.
Qed.

(** The norm is the square root of the chi-squared value, failure for
    failure. *)
Lemma residual_norm_of_chi_squared
    (d m : Np.ndarray) (e : option Np.ndarray) :
  compute_residual_norm d m e
  = rbind (compute_chi_squared d m e) (fun c => Ok (sqrt c)).
Proof.
  unfold compute_residual_norm, compute_chi_squared.
  destruct (Np.subtract d m) as [r |]; simpl; [| reflexivity].
  destruct e as [e |]; simpl; [| reflexivity].
  destruct (Np.divide r e); reflexivity.
Qed.

Lemma chi_squared_defined (d m : Np.ndarray) (e : option Np.ndarray) :
  length m = length d ->
  match e with Some s => length s = length d | None => True end ->
  exists c, compute_chi_squared d m e = Ok c /\ 0 <= c.
Proof.
  intros Hm He. unfold compute_chi_squared, Np.subtract, Np.divide.
  rewrite binop_same by congruence. simpl.
  destruct e as [s |]; simpl.
  - rewrite binop_same by (rewrite zip_with_length; congruence). simpl.
    eexists; split; [reflexivity | apply sum_square_nonneg].
  - eexists; split; [reflexivity | apply sum_square_nonneg].
Qed.

(** C4, as stated, fails when one of the two vectors has length 1: numpy
    broadcasts it.  With data [1, 2, 3] and model [1] the lengths differ,
    yet both functions return a number (chi-squared 5, norm sqrt 5). *)
Lemma length_one_broadcast_counterexample :
  length [1; 2; 3] <> length [1]
  /\ compute_chi_squared [1; 2; 3] [1] None = Ok 5
  /\ compute_residual_norm [1; 2; 3] [1] None = Ok (sqrt 5).
Proof.
  assert (E : compute_chi_squared [1; 2; 3] [1] None = Ok 5).
  { unfold compute_chi_squared, Np.subtract, Np.binop, Np.broadcast; simpl.
    f_equal. lra. }
  split; [simpl; lia |]. split; [exact E |].
  rewrite residual_norm_of_chi_squared, E. reflexivity.
Qed.

(** C4 (amended): when the data and model vectors differ in length and
    neither has length 1, both computations raise at once, whatever the
    uncertainties; no number is returned. *)
Theorem length_mismatch_raises
    (d m : Np.ndarray) (e : option Np.ndarray) :
  length d <> length m ->
  length d <> 1%nat ->
  length m <> 1%nat ->
  compute_residual_norm d m e = Raise ValueError
  /\ compute_chi_squared d m e = Raise ValueError.
Proof.
  intros Hdm Hd Hm.
  assert (E : compute_chi_squared d m e = Raise ValueError).
  { unfold compute_chi_squared, Np.subtract, Np.binop.
    rewrite (broadcast_mismatch _ _ Hdm Hd Hm). reflexivity. }
  split; [| exact E].
  rewrite residual_norm_of_chi_squared, E. reflexivity.
Qed.

Lemma length_mismatch_raises_witness :
  compute_residual_norm [1; 2; 3] [1; 2] (Some [1; 1; 1]) = Raise ValueError
  /\ compute_chi_squared [1; 2; 3] [1; 2] (Some [1; 1; 1]) = Raise ValueError.
Proof.
  apply (@length_mismatch_raises [1; 2; 3] [1; 2] (Some [1; 1; 1]));
    simpl; lia.
Defined.

(** The consistency of the norm with chi-squared is algebraic: the program
    returns the correctly rounded root of chi-squared, and squaring that
    again can differ from chi-squared in the last place.  On binary64,
    data [1, 1] and model [0, 0] give chi-squared 2 and the norm
    1.4142135623730951, whose square is 2.0000000000000004. *)
Lemma f64_squared_norm_is_rounded :
  F64.compute_chi_squared [1; 1]%float [0; 0]%float None = Ok 2%float
  /\ F64.compute_residual_norm [1; 1]%float [0; 0]%float None
     = Ok 1.4142135623730951%float
  /\ (1.4142135623730951 * 1.4142135623730951)%float
     = 2.0000000000000004%float
  /\ 2.0000000000000004%float <> 2%float.
Proof.
  split; [vm_compute; reflexivity |].
  split; [vm_compute; reflexivity |].
  split; [vm_compute; reflexivity |].
  intro H. apply (f_equal (fun x => PrimFloat.eqb x 2%float)) in H.
  vm_compute in H. discriminate.
Qed.

Lemma f64_residual_norm_of_chi_squared
    (d m : F64.ndarray) (e : option F64.ndarray) :
  F64.compute_residual_norm d m e
  = rbind (F64.compute_chi_squared d m e) (fun c => Ok (PrimFloat.sqrt c)).
Proof.
  unfold F64.compute_residual_norm, F64.compute_chi_squared.
  destruct (F64.subtract d m) as [r |]; simpl; [| reflexivity].
  destruct e as [e |]; simpl; [| reflexivity].
  destruct (F64.divide r e); reflexivity.
Qed.

(** C9: the norm and chi-squared are algebraically consistent.  On the
    same inputs, [compute_residual_norm] returns the square root of what
    [compute_chi_squared] returns, and raises when it raises, over the
    reals and on binary64 alike; for data and model of equal length, with
    or without a vector of positive uncertainties of that length, both
    return, chi-squared is not negative and the norm is its square root,
    so that the square of the norm is chi-squared, exactly over the reals
    and up to the rounding of the root and of the product on binary64. *)
Theorem residual_norm_is_root_of_chi_squared
    (d m : Np.ndarray) (e : option Np.ndarray)
    (df mf : F64.ndarray) (ef : option F64.ndarray) :
  compute_residual_norm d m e
  = rbind (compute_chi_squared d m e) (fun c => Ok (sqrt c))
  /\ F64.compute_residual_norm df mf ef
     = rbind (F64.compute_chi_squared df mf ef)
         (fun c => Ok (PrimFloat.sqrt c))
  /\ (length m = length d ->
      match e with
      | Some s => length s = length d /\ Forall (fun x => 0 < x) s
      | None => True
      end ->
      exists n c,
        compute_residual_norm d m e = Ok n
        /\ compute_chi_squared d m e = Ok c
        /\ 0 <= c
        /\ n = sqrt c).
Proof.
  split; [apply residual_norm_of_chi_squared |].
  split; [apply f64_residual_norm_of_chi_squared |].
  intros Hm He.
  destruct (@chi_squared_defined d m e Hm) as (c & Ec & Hc).
  { destruct e; [apply He | exact I]. }
  exists (sqrt c), c.
  rewrite residual_norm_of_chi_squared, Ec.
  repeat split; try reflexivity. exact Hc.
Qed.

Lemma residual_norm_is_root_of_chi_squared_witness :
  exists n c,
    compute_residual_norm [3; 5] [0; 1] (Some [1; 2]) = Ok n
    /\ compute_chi_squared [3; 5] [0; 1] (Some [1; 2]) = Ok c
    /\ 0 <= c
    /\ n = sqrt c.
Proof.
  destruct (@residual_norm_is_root_of_chi_squared
              [3; 5] [0; 1] (Some [1; 2]) [] [] None) as (_ & _ & A).
  apply A.
  - reflexivity.
  - split; [reflexivity |]. repeat constructor; lra.
Defined.

(** ** Summaries of an empty manifold *)

Lemma eq_one_zero : Np.eq_one 0 = false.
Proof. unfold Np.eq_one. destruct (Req_dec_T 0 1); [lra | reflexivity]. Qed.

Lemma concat_eq_one_zero (sv : Grid.field) :
  Forall (Forall (fun v => v = 0)) sv ->
  Forall (fun b => b = false) (concat (Mask.eq_one sv)).
Proof.
  induction 1 as [| row sv Hrow _ IH]; simpl; [constructor |].
  apply Forall_app. split; [| exact IH].
  induction Hrow as [| v row Hv _ IHrow]; simpl; constructor;
    [subst v; apply eq_one_zero | exact IHrow].
Qed.

Lemma eq_one_lengths (sv : Grid.field) :
  map (@length bool) (Mask.eq_one sv) = map (@length R) sv.
Proof.
  unfold Mask.eq_one. rewrite map_map. apply map_ext.
  intro row. apply length_map.
Qed.

Lemma filter_all_false (l : list bool) :
  Forall (fun b => b = false) l -> filter (fun b => b) l = [].
Proof.
  induction 1 as [| b l Hb _ IH]; simpl; [reflexivity |].
  subst b. exact IH.
Qed.

Lemma existsb_all_false (l : list bool) :
  Forall (fun b => b = false) l -> existsb (fun b => b) l = false.
Proof.
  induction 1 as [| b l Hb _ IH]; simpl; [reflexivity |].
  subst b. exact IH.
Qed.

Lemma filter_combine_all_false {A} (xs : list A) (l : list bool) :
  Forall (fun b => b = false) l -> filter snd (combine xs l) = [].
Proof.
  intro H. revert xs.
  induction H as [| b l Hb _ IH]; intros [| x xs]; simpl; try reflexivity.
  subst b. apply IH.
Qed.

Lemma select_none (g sv : Grid.field) :
  Forall (Forall (fun v => v = 0)) sv ->
  map (@length R) g = map (@length R) sv ->
  Grid.select g (Mask.eq_one sv) = Ok [].
Proof.
  intros Hz Hs. unfold Grid.select.
  destruct (list_eq_dec Nat.eq_dec _ _) as [_ | N].
  - rewrite (filter_combine_all_false _ (concat_eq_one_zero Hz)). reflexivity.
  - exfalso. apply N. rewrite eq_one_lengths. exact Hs.
Qed.

Lemma count_none (sv : Grid.field) :
  Forall (Forall (fun v => v = 0)) sv -> Mask.count (Mask.eq_one sv) = 0%Z.
Proof.
  intro Hz. unfold Mask.count.
  rewrite (filter_all_false (concat_eq_one_zero Hz)). reflexivity.
Qed.

Lemma any_none (sv : Grid.field) :
  Forall (Forall (fun v => v = 0)) sv -> Mask.any (Mask.eq_one sv) = false.
Proof. intro Hz. apply existsb_all_false, concat_eq_one_zero, Hz. Qed.

(** What [analyze_geometry] returns on a scanner whose cached switch field
    is all zeros: the four counting entries and nothing else. *)
Lemma analyze_geometry_no_resonance
    (this : LatencyFreeScanner) (sv g1 g2 : Grid.field) :
  switch_values this = Some sv ->
  grid_points this = Some (g1, g2) ->
  map (@length R) g1 = map (@length R) sv ->
  map (@length R) g2 = map (@length R) sv ->
  Forall (Forall (fun v => v = 0)) sv ->
  analyze_geometry this
  = Ok [("n_resonant_points", PyInt 0);
        ("total_points", PyInt (Z.of_nat (Grid.size sv)));
        ("resonance_fraction", PyFloat (0 / INR (Grid.size sv)));
        ("manifold_size", PyInt 0)]%string.
Proof.
  intros Hsv Hg H1 H2 Hz.
  unfold analyze_geometry, find_manifold. rewrite Hsv, Hg.
  rewrite (select_none _ Hz H1), (select_none _ Hz H2).
  rewrite (count_none Hz). reflexivity.
Qed.

(** What [find_dipole_structure] returns when both switch fields are all
    zeros: every entry keeps its initial [None]. *)
Lemma find_dipole_structure_no_resonance
    (planck supernova grid_H0 grid_Om0 : Grid.field) :
  Forall (Forall (fun v => v = 0)) planck ->
  Forall (Forall (fun v => v = 0)) supernova ->
  find_dipole_structure planck supernova grid_H0 grid_Om0
  = Ok [("planck_pole", PyNone); ("supernova_pole", PyNone);
        ("dipole_distance", PyNone); ("dipole_angle", PyNone);
        ("overlap", PyNone)]%string.
Proof.
  intros Hp Hs. unfold find_dipole_structure, locate_pole.
  rewrite (any_none Hp), (any_none Hs). reflexivity.
Qed.

(** C7, as stated, fails: on a scanner whose two-by-two switch field is all
    zeros [analyze_geometry] does not raise; it returns the four counting
    entries and leaves out the mean and standard-deviation entries. *)
Lemma analyze_geometry_empty_counterexample :
  switch_values quiet_scanner = Some [[0; 0]; [0; 0]]
  /\ analyze_geometry quiet_scanner
     = Ok [("n_resonant_points", PyInt 0);
           ("total_points", PyInt 4);
           ("resonance_fraction", PyFloat (0 / INR 4));
           ("manifold_size", PyInt 0)]%string.
Proof.
  split; [reflexivity |].
  rewrite (@analyze_geometry_no_resonance quiet_scanner
             [[0; 0]; [0; 0]] [[1; 2]; [1; 2]] [[3; 3]; [4; 4]]);
    try reflexivity.
  repeat constructor.
Qed.

(** C7 (amended): on an all-zero switch field the summaries return
    normally.  [analyze_geometry] reports zero resonant points and a
    manifold of size zero and has no mean or standard-deviation entry (so no
    centroid (0, 0) and no NaN); [find_dipole_structure] on two all-zero
    fields returns every entry as [None]. *)
Theorem empty_manifold_is_reported_without_statistics
    (this : LatencyFreeScanner) (sv g1 g2 : Grid.field)
    (planck supernova grid_H0 grid_Om0 : Grid.field) :
  switch_values this = Some sv ->
  grid_points this = Some (g1, g2) ->
  map (@length R) g1 = map (@length R) sv ->
  map (@length R) g2 = map (@length R) sv ->
  Forall (Forall (fun v => v = 0)) sv ->
  Forall (Forall (fun v => v = 0)) planck ->
  Forall (Forall (fun v => v = 0)) supernova ->
  (exists d,
      analyze_geometry this = Ok d
      /\ dict_get d "n_resonant_points" = Some (PyInt 0)
      /\ dict_get d "manifold_size" = Some (PyInt 0)
      /\ dict_get d "param1_mean" = None
      /\ dict_get d "param1_std" = None
      /\ dict_get d "param2_mean" = None
      /\ dict_get d "param2_std" = None)
  /\ find_dipole_structure planck supernova grid_H0 grid_Om0
     = Ok [("planck_pole", PyNone); ("supernova_pole", PyNone);
           ("dipole_distance", PyNone); ("dipole_angle", PyNone);
           ("overlap", PyNone)]%string.
Proof.
  intros Hsv Hg H1 H2 Hz Hp Hs. split.
  - eexists. split; [apply (analyze_geometry_no_resonance _ Hsv Hg H1 H2 Hz) |].
    repeat split; reflexivity.
  - apply find_dipole_structure_no_resonance; assumption.
Qed.

Lemma empty_manifold_is_reported_without_statistics_witness :
  (exists d,
      analyze_geometry quiet_scanner = Ok d
      /\ dict_get d "n_resonant_points" = Some (PyInt 0)
      /\ dict_get d "manifold_size" = Some (PyInt 0)
      /\ dict_get d "param1_mean" = None
      /\ dict_get d "param1_std" = None
      /\ dict_get d "param2_mean" = None
      /\ dict_get d "param2_std" = None)
  /\ find_dipole_structure [[0; 0]; [0; 0]] [[0; 0]; [0; 0]]
       [[1; 2]; [1; 2]] [[3; 3]; [4; 4]]
     = Ok [("planck_pole", PyNone); ("supernova_pole", PyNone);
           ("dipole_distance", PyNone); ("dipole_angle", PyNone);
           ("overlap", PyNone)]%string.
Proof.
  apply (@empty_manifold_is_reported_without_statistics quiet_scanner
           [[0; 0]; [0; 0]] [[1; 2]; [1; 2]] [[3; 3]; [4; 4]]
           [[0; 0]; [0; 0]] [[0; 0]; [0; 0]]
           [[1; 2]; [1; 2]] [[3; 3]; [4; 4]]);
    try reflexivity; repeat constructor.
Defined.

(** ** Arrays and grids *)

Lemma update_length {A} (a : list A) (i : nat) (v : A) :
  (i < length a)%nat -> length (Grid.update a i v) = length a.
Proof.
  intro H. unfold Grid.update.
  rewrite length_app, length_firstn. cbn [length]. rewrite length_skipn. lia.
Qed.

Lemma nth_error_update_eq {A} (a : list A) (i : nat) (v : A) :
  (i < length a)%nat -> nth_error (Grid.update a i v) i = Some v.
Proof.
  intro H. unfold Grid.update.
  rewrite nth_error_app2; rewrite length_firstn; [| lia].
  replace (i - Nat.min i (length a))%nat with 0%nat by lia. reflexivity.
Qed.

Lemma nth_error_update_neq {A} (a : list A) (i k : nat) (v : A) :
  (i < length a)%nat -> k <> i ->
  nth_error (Grid.update a i v) k = nth_error a k.
Proof.
  intros Hi H. unfold Grid.update.
  destruct (Nat.lt_ge_cases k i) as [Hk | Hk].
  - rewrite nth_error_app1 by (rewrite length_firstn; lia).
    rewrite nth_error_firstn, (proj2 (Nat.ltb_lt _ _) Hk). reflexivity.
  - rewrite nth_error_app2 by (rewrite length_firstn; lia).
    rewrite length_firstn.
    replace (k - Nat.min i (length a))%nat with (S (k - S i)) by lia.
    cbn [nth_error]. rewrite nth_error_skipn. f_equal. lia.
Qed.

Lemma Forall_update {A} (P : A -> Prop) (a : list A) (i : nat) (v : A) :
  Forall P a -> P v -> Forall P (Grid.update a i v).
Proof.
  intros Ha Hv. revert i.
  induction Ha as [| x a Hx Ha IH]; intro i.
  - replace (Grid.update [] i v) with [v] by (destruct i; reflexivity).
    constructor; [exact Hv | constructor].
  - destruct i as [| i].
    + change (Forall P (v :: a)). constructor; assumption.
    + change (Forall P (x :: Grid.update a i v)).
      constructor; [exact Hx | apply IH].
Qed.

Lemma setitem_ok (a : Np.ndarray) (i : nat) (v : R) :
  (i < length a)%nat -> Grid.setitem a i v = Ok (Grid.update a i v).
Proof.
  intro H. unfold Grid.setitem.
  rewrite (proj2 (Nat.ltb_lt _ _) H). reflexivity.
Qed.

Lemma has_shape_nth (g : Grid.field) (rows cols j : nat) :
  Grid.has_shape g rows cols -> (j < rows)%nat ->
  exists row, nth_error g j = Some row /\ length row = cols.
Proof.
  intros [Hl Hf] Hj.
  destruct (nth_error g j) as [row |] eqn:E.
  - exists row. split; [reflexivity |].
    rewrite Forall_forall in Hf. apply Hf. eapply nth_error_In; eassumption.
  - apply nth_error_None in E. lia.
Qed.

Lemma setitem2_ok (g : Grid.field) (rows cols j i : nat) (v : R) :
  Grid.has_shape g rows cols -> (j < rows)%nat -> (i < cols)%nat ->
  exists g',
    Grid.setitem2 g j i v = Ok g'
    /\ Grid.has_shape g' rows cols
    /\ Grid.getitem2 g' j i = Ok v
    /\ (forall j' i', (j', i') <> (j, i) ->
          Grid.getitem2 g' j' i' = Grid.getitem2 g j' i').
Proof.
  intros Hs Hj Hi.
  destruct (has_shape_nth Hs Hj) as (row & Er & Hr).
  destruct Hs as [Hl Hf].
  exists (Grid.update g j (Grid.update row i v)).
  unfold Grid.setitem2. rewrite Er, setitem_ok by lia. simpl.
  split; [reflexivity |]. split; [| split].
  - split; [rewrite update_length; lia |].
    apply Forall_update; [exact Hf | rewrite update_length; lia].
  - unfold Grid.getitem2, Grid.getitem.
    rewrite nth_error_update_eq by lia.
    rewrite nth_error_update_eq by lia. reflexivity.
  - intros j' i' N. unfold Grid.getitem2.
    destruct (Nat.eq_dec j' j) as [-> | Nj].
    + rewrite nth_error_update_eq by lia. rewrite Er.
      unfold Grid.getitem. rewrite nth_error_update_neq; [reflexivity | lia |].
      intro E. apply N. congruence.
    + rewrite nth_error_update_neq by (assumption || lia). reflexivity.
Qed.

Lemma linspace_length (start stop : R) (num : Z) (a : Np.ndarray) :
  Grid.linspace start stop num = Ok a ->
  (0 <= num)%Z /\ length a = Z.to_nat num.
Proof.
  unfold Grid.linspace. destruct (Z.ltb_spec num 0) as [H | H];
    [discriminate |].
  intro E. injection E as <-. split; [assumption |].
  destruct (Nat.ltb_spec 1 (Z.to_nat num)) as [H1 | H1].
  - rewrite length_app. simpl.
    assert (L : forall l : list R, l <> [] ->
                (length (removelast l) + 1 = length l)%nat).
    { intros l Hl. destruct (exists_last Hl) as (l' & x & ->).
      rewrite removelast_last, length_app. reflexivity. }
    rewrite L.
    + rewrite length_map. destruct (0 <? Z.to_nat num - 1)%nat;
        rewrite !length_map, length_seq; reflexivity.
    + intro E. apply (f_equal (@length R)) in E.
      rewrite length_map in E. destruct (0 <? Z.to_nat num - 1)%nat;
        rewrite !length_map, length_seq in E; simpl in E; lia.
  - rewrite length_map. destruct (0 <? Z.to_nat num - 1)%nat;
      rewrite !length_map, length_seq; reflexivity.
Qed.

Lemma linspace_defined (start stop : R) (num : Z) :
  (0 <= num)%Z -> exists a, Grid.linspace start stop num = Ok a.
Proof.
  intro H. unfold Grid.linspace.
  destruct (Z.ltb_spec num 0); [lia |]. eexists; reflexivity.
Qed.

Lemma zeros_ok (num : Z) :
  (0 <= num)%Z -> Grid.zeros num = Ok (repeat 0 (Z.to_nat num)).
Proof. intro H. unfold Grid.zeros. destruct (Z.ltb_spec num 0); [lia | reflexivity]. Qed.

Lemma meshgrid_shape (x y : Np.ndarray) :
  Grid.has_shape (fst (Grid.meshgrid x y)) (length y) (length x)
  /\ Grid.has_shape (snd (Grid.meshgrid x y)) (length y) (length x).
Proof.
  unfold Grid.meshgrid, Grid.has_shape; simpl. rewrite !length_map.
  repeat split; try reflexivity; apply Forall_map, Forall_forall;
    intros; [reflexivity | apply length_map].
Qed.

Lemma zeros_like_shape (g : Grid.field) (rows cols : nat) :
  Grid.has_shape g rows cols ->
  Grid.has_shape (Grid.zeros_like g) rows cols.
Proof.
  intros [Hl Hf]. unfold Grid.zeros_like. split; [rewrite length_map; exact Hl |].
  apply Forall_map. eapply Forall_impl; [| exact Hf].
  intros row Hr. simpl. rewrite length_map. exact Hr.
Qed.

Lemma meshgrid_getitem (x y : Np.ndarray) (i j : nat) (xi yj : R) :
  nth_error x i = Some xi -> nth_error y j = Some yj ->
  Grid.getitem2 (fst (Grid.meshgrid x y)) j i = Ok xi
  /\ Grid.getitem2 (snd (Grid.meshgrid x y)) j i = Ok yj.
Proof.
  intros Hx Hy. unfold Grid.meshgrid, Grid.getitem2, Grid.getitem; simpl.
  rewrite !nth_error_map, Hy. simpl.
  rewrite Hx, nth_error_map, Hx. split; reflexivity.
Qed.

(** ** Loops *)

Section Loops.

Context {B S : Type}.

Lemma for_each_app (xs ys : list B) (body : B -> S -> M S)
    (s : S) (w : world) :
  for_each (xs ++ ys) body s w
  = match for_each xs body s w with
    | (Ok s', w') => for_each ys body s' w'
    | (Raise e, w') => (Raise e, w')
    end.
Proof.
  revert s w. induction xs as [| x xs IH]; intros s w; simpl.
  - reflexivity.
  - unfold bind. destruct (body x s w) as [[s' | e] w'];
      [apply IH | reflexivity].
Qed.

Variable this : LatencyFreeScanner.

(** The argument list of the one model call an item makes. *)
Variable point : B -> list R.

(** What holds of the loop-carried variables once the items [done] have
    been processed. *)
Variable Inv : list B -> S -> Prop.

Variable body : B -> S -> M S.

Lemma for_each_ok (xs : list B) :
  Forall (step_ok this point Inv body) xs ->
  forall done s w,
    Inv done s -> self w = this ->
    exists s',
      for_each xs body s w = (Ok s', log_calls (map point xs) w)
      /\ Inv (done ++ xs) s'.
Proof.
  induction 1 as [| x xs Hx _ IH]; intros done s w Hs Hw; simpl.
  - exists s. split.
    + unfold ret, log_calls. rewrite app_nil_r. destruct w; reflexivity.
    + rewrite app_nil_r. exact Hs.
  - destruct (Hx done s w Hs Hw) as (s1 & E1 & H1).
    destruct (IH (done ++ [x]) s1 (log_calls [point x] w) H1 Hw)
      as (s2 & E2 & H2).
    exists s2. split.
    + unfold bind. rewrite E1, E2. unfold log_calls; simpl.
      rewrite <- app_assoc. reflexivity.
    + rewrite <- app_assoc in H2. exact H2.
Qed.

(** The first item on which the body raises ends the loop: the exception
    escapes, the calls made are those of the items before it and its own,
    and the scanner is untouched. *)
Lemma for_each_raise (pre post : list B) (x : B) (e : exn) :
  Forall (step_ok this point Inv body) pre ->
  (forall s w, Inv pre s -> self w = this ->
               body x s w = (Raise e, log_calls [point x] w)) ->
  forall s w,
    Inv [] s -> self w = this ->
    for_each (pre ++ x :: post) body s w
    = (Raise e, log_calls (map point pre ++ [point x]) w).
Proof.
  intros Hpre Hx s w Hs Hw.
  destruct (for_each_ok Hpre w Hs Hw) as (s1 & E1 & H1).
  rewrite for_each_app, E1. simpl. unfold bind.
  rewrite (Hx s1 (log_calls (map point pre) w) H1 Hw).
  unfold log_calls; simpl. rewrite <- app_assoc. reflexivity.
Qed.

End Loops.

Lemma for_each_map {A B S} (f : A -> B) (ys : list A)
    (body : B -> S -> M S) (s : S) (w : world) :
  for_each (map f ys) body s w = for_each ys (fun y => body (f y)) s w.
Proof.
  revert s w. induction ys as [| y ys IH]; intros s w; simpl.
  - reflexivity.
  - unfold bind. destruct (body (f y) s w) as [[s' | e] w'];
      [apply IH | reflexivity].
Qed.

(** Two nested loops visit the pairs of [list_prod], outer index first. *)
Lemma for_each_nested {A B S} (xs : list A) (ys : list B)
    (body : A -> B -> S -> M S) (s : S) (w : world) :
  for_each xs (fun x => for_each ys (body x)) s w
  = for_each (list_prod xs ys) (fun p => body (fst p) (snd p)) s w.
Proof.
  revert s w. induction xs as [| x xs IH]; intros s w; simpl.
  - reflexivity.
  - rewrite for_each_app, for_each_map. simpl. unfold bind.
    destruct (for_each ys _ s w) as [[s' | e] w'];
      [apply IH | reflexivity].
Qed.

(** ** One grid point *)

Lemma evaluate_point_ok (this : LatencyFreeScanner) (args : list R) :
  is_ok (evaluate_point this args) = true ->
  exists model residual,
    model_func this args = Ok model
    /\ compute_residual_norm (data this) model (errors this) = Ok residual
    /\ evaluate_point this args
       = Ok (IZR (call (switch this) residual),
             resonance_strength (switch this) residual).
Proof.
  unfold evaluate_point.
  destruct (model_func this args) as [model |] eqn:Em; simpl;
    [| discriminate].
  destruct (compute_residual_norm (data this) model (errors this))
    as [residual |] eqn:Er; simpl; [| discriminate].
  intros _. exists model, residual. repeat split; assumption.
Qed.

Lemma evaluate_point_raise (this : LatencyFreeScanner) (args : list R)
    (e : exn) :
  model_func this args = Raise e -> evaluate_point this args = Raise e.
Proof. intro H. unfold evaluate_point. rewrite H. reflexivity. Qed.

(** ** The one-dimensional scan *)

Lemma enumerate_from_nth (l : Np.ndarray) (k i : nat) (p : R) :
  In (i, p) (combine (seq k (length l)) l) ->
  (k <= i)%nat /\ nth_error l (i - k) = Some p.
Proof.
  revert k. induction l as [| x l IH]; intros k H; simpl in H; [contradiction |].
  destruct H as [H | H].
  - injection H as <- <-. split; [lia |].
    rewrite Nat.sub_diag. reflexivity.
  - destruct (IH _ H) as [Hk Hn]. split; [lia |].
    replace (i - k)%nat with (S (i - S k)) by lia. exact Hn.
Qed.

Lemma enumerate_nth (l : Np.ndarray) (i : nat) (p : R) :
  In (i, p) (Grid.enumerate l) -> nth_error l i = Some p.
Proof.
  intro H. apply enumerate_from_nth in H. destruct H as [_ H].
  rewrite Nat.sub_0_r in H. exact H.
Qed.

Lemma enumerate_fst (l : Np.ndarray) :
  map fst (Grid.enumerate l) = seq 0 (length l).
Proof.
  unfold Grid.enumerate. generalize 0%nat.
  induction l as [| x l IH]; intro k; simpl; [reflexivity |].
  f_equal. apply IH.
Qed.

Lemma enumerate_snd (l : Np.ndarray) : map snd (Grid.enumerate l) = l.
Proof.
  unfold Grid.enumerate. generalize 0%nat.
  induction l as [| x l IH]; intro k; simpl; [reflexivity |].
  f_equal. apply IH.
Qed.

Lemma enumerate_order (l : Np.ndarray) :
  map (fun item : nat * R => [snd item]) (Grid.enumerate l)
  = scan_order_1d l.
Proof.
  unfold scan_order_1d.
  rewrite <- (map_map snd (fun p : R => [p])), enumerate_snd. reflexivity.
Qed.

Lemma enumerate_split (pre post : Np.ndarray) (p : R) :
  exists ipre ipost,
    Grid.enumerate (pre ++ p :: post) = ipre ++ (length pre, p) :: ipost
    /\ map snd ipre = pre
    /\ (forall i q, In (i, q) ipre -> In q pre).
Proof.
  unfold Grid.enumerate.
  assert (G : forall k,
             exists ipre ipost,
               combine (seq k (length (pre ++ p :: post))) (pre ++ p :: post)
               = ipre ++ ((k + length pre)%nat, p) :: ipost
               /\ map snd ipre = pre
               /\ (forall i q, In (i, q) ipre -> In q pre)).
  { induction pre as [| x pre IH]; intro k; simpl.
    - exists [], (combine (seq (S k) (length post)) post).
      rewrite Nat.add_0_r. split; [reflexivity |].
      split; [reflexivity | intros i q []].
    - destruct (IH (S k)) as (ipre & ipost & E & Hs & Hin).
      exists ((k, x) :: ipre), ipost. simpl. rewrite E.
      replace (S k + length pre)%nat with (k + S (length pre))%nat by lia.
      split; [reflexivity |]. split; [rewrite Hs; reflexivity |].
      intros i q [H | H]; [injection H as _ <-; left; reflexivity |].
      right. eapply Hin; eassumption. }
  destruct (G 0%nat) as (ipre & ipost & E & Hs & Hin).
  exists ipre, ipost. rewrite E. repeat split; assumption.
Qed.

Lemma scan_1d_body_ok (this : LatencyFreeScanner) (params : Np.ndarray)
    (i : nat) (p : R) :
  nth_error params i = Some p ->
  is_ok (evaluate_point this [p]) = true ->
  step_ok this (fun item => [snd item]) (filled_1d this params)
    scan_1d_body (i, p).
Proof.
  intros Hp Hok done [sw rs] w (Hl1 & Hl2 & Hd) Hw. simpl in Hl1, Hl2.
  destruct (evaluate_point_ok _ _ Hok) as (model & residual & Em & Er & Ev).
  assert (Hi : (i < length params)%nat).
  { apply nth_error_Some. rewrite Hp. discriminate. }
  exists (Grid.update sw i (IZR (call (switch this) residual)),
          Grid.update rs i (resonance_strength (switch this) residual)).
  split.
  - unfold scan_1d_body, bind, call_model, get_self, lift, ret, log_calls.
    rewrite Hw, Em. simpl. rewrite Er.
    rewrite !setitem_ok by lia. reflexivity.
  - unfold filled_1d; simpl. rewrite !update_length by lia.
    split; [assumption |]. split; [assumption |].
    intros k Hk. rewrite map_app, in_app_iff in Hk.
    destruct (Nat.eq_dec k i) as [-> | N].
    + exists p, (IZR (call (switch this) residual)),
        (resonance_strength (switch this) residual).
      rewrite !nth_error_update_eq by lia. repeat split; assumption.
    + destruct Hk as [Hk | [Hk | []]]; [| simpl in Hk; congruence].
      destruct (Hd k Hk) as (q & b & r & Hq & Hv & Hb & Hr).
      exists q, b, r. simpl in Hb, Hr.
      rewrite !nth_error_update_neq by lia. repeat split; assumption.
Qed.

Lemma scan_1d_body_raise (this : LatencyFreeScanner) (i : nat) (p : R)
    (e : exn) (acc : Np.ndarray * Np.ndarray) (w : world) :
  model_func this [p] = Raise e ->
  self w = this ->
  scan_1d_body (i, p) acc w = (Raise e, log_calls [[p]] w).
Proof.
  intros He Hw. destruct acc as [sw rs].
  unfold scan_1d_body, bind, call_model, log_calls.
  rewrite Hw, He. reflexivity.
Qed.

Lemma filled_1d_zeros (this : LatencyFreeScanner) (params : Np.ndarray) :
  filled_1d this params []
    (repeat 0 (length params), repeat 0 (length params)).
Proof.
  unfold filled_1d; simpl. rewrite repeat_length.
  repeat split; try reflexivity. intros i [].
Qed.

(** A one-dimensional scan whose every grid point evaluates returns the
    grid and two arrays of the same length, filled index by index, having
    called the model once per grid point, in order. *)
Lemma scan_1d_ok (w : world) (param_range : R * R) (n_points : Z)
    (params : Np.ndarray) :
  Grid.linspace (fst param_range) (snd param_range) n_points = Ok params ->
  Forall (fun p => is_ok (evaluate_point (self w) [p]) = true) params ->
  exists switches resonances,
    scan_1d param_range n_points w
    = (Ok (params, switches, resonances),
       log_calls (scan_order_1d params) w)
    /\ length params = Z.to_nat n_points
    /\ length switches = Z.to_nat n_points
    /\ length resonances = Z.to_nat n_points
    /\ forall i, (i < Z.to_nat n_points)%nat ->
         exists p b r,
           nth_error params i = Some p
           /\ evaluate_point (self w) [p] = Ok (b, r)
           /\ nth_error switches i = Some b
           /\ nth_error resonances i = Some r.
Proof.
  intros Hl Hok.
  destruct (linspace_length _ _ _ Hl) as [Hn Hlen].
  assert (Hsteps : Forall (step_ok (self w) (fun item => [snd item])
                             (filled_1d (self w) params) scan_1d_body)
                     (Grid.enumerate params)).
  { apply Forall_forall. intros [i p] Hin.
    pose proof (enumerate_nth _ _ _ Hin) as Hp.
    apply scan_1d_body_ok; [exact Hp |].
    rewrite Forall_forall in Hok. apply Hok.
    eapply nth_error_In; eassumption. }
  destruct (@for_each_ok _ _ _ _ _ _ _ Hsteps []
              (repeat 0 (length params), repeat 0 (length params))
              w (filled_1d_zeros _ _) eq_refl)
    as ([sw rs] & E & (H1 & H2 & Hd)).
  simpl in H1, H2, Hd.
  exists sw, rs. split; [| repeat split; try congruence].
  - unfold scan_1d, bind, lift at 1 2 3. rewrite Hl, zeros_ok by assumption.
    rewrite <- Hlen, E. unfold ret. rewrite enumerate_order. reflexivity.
  - intros i Hi. apply Hd. rewrite enumerate_fst. apply in_seq. lia.
Qed.

(** A one-dimensional scan whose model raises at the grid point [p], the
    points before it having evaluated, raises the same exception after
    calling the model on those points and on [p] only. *)
Lemma scan_1d_raise (w : world) (param_range : R * R) (n_points : Z)
    (pre post : Np.ndarray) (p : R) (e : exn) :
  Grid.linspace (fst param_range) (snd param_range) n_points
  = Ok (pre ++ p :: post) ->
  Forall (fun q => is_ok (evaluate_point (self w) [q]) = true) pre ->
  model_func (self w) [p] = Raise e ->
  scan_1d param_range n_points w
  = (Raise e, log_calls (scan_order_1d pre ++ [[p]]) w).
Proof.
  intros Hl Hok He.
  destruct (linspace_length _ _ _ Hl) as [Hn Hlen].
  destruct (enumerate_split pre post p) as (ipre & ipost & Een & Hs & Hin).
  assert (Hsteps : Forall (step_ok (self w) (fun item => [snd item])
                             (filled_1d (self w) (pre ++ p :: post))
                             scan_1d_body) ipre).
  { apply Forall_forall. intros [i q] Hiq.
    apply scan_1d_body_ok.
    - apply enumerate_nth. rewrite Een. apply in_or_app. left. exact Hiq.
    - rewrite Forall_forall in Hok. apply Hok. eapply Hin; eassumption. }
  unfold scan_1d, bind, lift at 1 2 3. rewrite Hl, zeros_ok by assumption.
  rewrite Een, <- Hlen.
  assert (Hx : forall s w',
             filled_1d (self w) (pre ++ p :: post) ipre s ->
             self w' = self w ->
             scan_1d_body (length pre, p) s w'
             = (Raise e, log_calls [[p]] w')).
  { intros s w' _ Hw'.
    apply scan_1d_body_raise with (this := self w); [exact He | exact Hw']. }
  rewrite (@for_each_raise _ _ (self w) (fun item => [snd item])
             (filled_1d (self w) (pre ++ p :: post)) scan_1d_body
             ipre ipost (length pre, p) e Hsteps Hx _ w
             (filled_1d_zeros _ _) eq_refl).
  simpl. unfold scan_order_1d. rewrite <- Hs, map_map. reflexivity.
Qed.

(** ** The two-dimensional scan *)

Lemma map_nth_seq (l : list R) :
  map (fun i => nth i l 0) (seq 0 (length l)) = l.
Proof.
  apply nth_ext with (d := 0) (d' := 0).
  - rewrite length_map, length_seq. reflexivity.
  - intros n Hn. rewrite length_map, length_seq in Hn.
    rewrite (nth_indep _ 0 (nth 0%nat l 0))
      by (rewrite length_map, length_seq; exact Hn).
    rewrite (map_nth (fun i => nth i l 0) (seq 0 (length l)) 0%nat n).
    rewrite seq_nth by exact Hn. reflexivity.
Qed.

Lemma list_prod_map {A B C D} (f : A -> C) (g : B -> D)
    (a : list A) (b : list B) :
  list_prod (map f a) (map g b)
  = map (fun p => (f (fst p), g (snd p))) (list_prod a b).
Proof.
  induction a as [| x a IH]; simpl; [reflexivity |].
  rewrite map_app, IH, !map_map. reflexivity.
Qed.

Lemma scan_order_2d_points (param1 param2 : Np.ndarray) :
  map (point_2d param1 param2)
      (list_prod (seq 0 (length param1)) (seq 0 (length param2)))
  = scan_order_2d param1 param2.
Proof.
  unfold scan_order_2d.
  rewrite <- (map_nth_seq param1) at 3.
  rewrite <- (map_nth_seq param2) at 3.
  rewrite list_prod_map, map_map. reflexivity.
Qed.

Lemma nth_error_nth_R (l : list R) (i : nat) (x : R) :
  nth_error l i = Some x -> nth i l 0 = x.
Proof. intro H. apply nth_error_nth. exact H. Qed.

Lemma scan_2d_body_ok (this : LatencyFreeScanner)
    (param1 param2 : Np.ndarray) (g1 g2 : Grid.field)
    (i j : nat) (x y : R) :
  Grid.meshgrid param1 param2 = (g1, g2) ->
  nth_error param1 i = Some x ->
  nth_error param2 j = Some y ->
  is_ok (evaluate_point this [x; y]) = true ->
  step_ok this (point_2d param1 param2) (filled_2d this param1 param2)
    (fun ij => scan_2d_body g1 g2 (fst ij) (snd ij)) (i, j).
Proof.
  intros Hg Hx Hy Hok done [sw rs] w (Hs1 & Hs2 & Hd) Hw.
  simpl in Hs1, Hs2.
  destruct (evaluate_point_ok _ _ Hok) as (model & residual & Em & Er & Ev).
  assert (Hi : (i < length param1)%nat).
  { apply nth_error_Some. rewrite Hx. discriminate. }
  assert (Hj : (j < length param2)%nat).
  { apply nth_error_Some. rewrite Hy. discriminate. }
  destruct (meshgrid_getitem _ _ _ _ Hx Hy) as [G1 G2].
  rewrite Hg in G1, G2. simpl in G1, G2.
  destruct (setitem2_ok (IZR (call (switch this) residual)) Hs1 Hj Hi)
    as (sw' & Esw & Hsw & Gsw & Osw).
  destruct (setitem2_ok (resonance_strength (switch this) residual)
              Hs2 Hj Hi)
    as (rs' & Ers & Hrs & Grs & Ors).
  exists (sw', rs'). split.
  - unfold scan_2d_body, bind, call_model, get_self, lift, ret, log_calls.
    simpl. rewrite G1, G2, Hw, Em. simpl. rewrite Er, Esw, Ers.
    unfold point_2d; simpl.
    rewrite (nth_error_nth_R _ _ Hx), (nth_error_nth_R _ _ Hy). reflexivity.
  - split; [exact Hsw |]. split; [exact Hrs |]. simpl.
    intros i' j' Hin. apply in_app_iff in Hin.
    destruct (Nat.eq_dec i' i) as [-> | Ni];
      [destruct (Nat.eq_dec j' j) as [-> | Nj] |].
    + exists x, y, (IZR (call (switch this) residual)),
        (resonance_strength (switch this) residual).
      repeat split; assumption.
    + destruct Hin as [Hin | [Hin | []]]; [| congruence].
      destruct (Hd _ _ Hin) as (x' & y' & b & r & Hx' & Hy' & Hv & Hb & Hr).
      exists x', y', b, r. simpl in Hb, Hr.
      rewrite Osw, Ors by congruence. repeat split; assumption.
    + destruct Hin as [Hin | [Hin | []]]; [| congruence].
      destruct (Hd _ _ Hin) as (x' & y' & b & r & Hx' & Hy' & Hv & Hb & Hr).
      exists x', y', b, r. simpl in Hb, Hr.
      rewrite Osw, Ors by congruence. repeat split; assumption.
Qed.

Lemma scan_2d_body_raise (this : LatencyFreeScanner)
    (param1 param2 : Np.ndarray) (g1 g2 : Grid.field)
    (i j : nat) (x y : R) (e : exn)
    (acc : Grid.field * Grid.field) (w : world) :
  Grid.meshgrid param1 param2 = (g1, g2) ->
  nth_error param1 i = Some x ->
  nth_error param2 j = Some y ->
  model_func this [x; y] = Raise e ->
  self w = this ->
  scan_2d_body g1 g2 i j acc w
  = (Raise e, log_calls [point_2d param1 param2 (i, j)] w).
Proof.
  intros Hg Hx Hy He Hw. destruct acc as [sw rs].
  destruct (meshgrid_getitem _ _ _ _ Hx Hy) as [G1 G2].
  rewrite Hg in G1, G2. simpl in G1, G2.
  unfold scan_2d_body, bind, call_model, lift, log_calls.
  rewrite G1, G2, Hw, He. unfold point_2d; simpl.
  rewrite (nth_error_nth_R _ _ Hx), (nth_error_nth_R _ _ Hy). reflexivity.
Qed.

Lemma filled_2d_zeros (this : LatencyFreeScanner)
    (param1 param2 : Np.ndarray) (g1 g2 : Grid.field) :
  Grid.meshgrid param1 param2 = (g1, g2) ->
  filled_2d this param1 param2 [] (Grid.zeros_like g1, Grid.zeros_like g1).
Proof.
  intro Hg. destruct (meshgrid_shape param1 param2) as [H1 _].
  rewrite Hg in H1. simpl in H1.
  split; [apply zeros_like_shape; exact H1 |].
  split; [apply zeros_like_shape; exact H1 |]. intros i j [].
Qed.

Lemma in_index_pairs (n1 n2 i j : nat) :
  In (i, j) (list_prod (seq 0 n1) (seq 0 n2)) <->
  (i < n1)%nat /\ (j < n2)%nat.
Proof. rewrite in_prod_iff, !in_seq. lia. Qed.

Lemma nth_error_defined (l : list R) (i : nat) :
  (i < length l)%nat -> exists x, nth_error l i = Some x.
Proof.
  intro H. destruct (nth_error l i) as [x |] eqn:E; [exists x; reflexivity |].
  apply nth_error_None in E. lia.
Qed.

(** The steps of a two-dimensional scan succeed on every index pair whose
    grid point evaluates. *)
Lemma scan_2d_steps (this : LatencyFreeScanner)
    (param1 param2 : Np.ndarray) (g1 g2 : Grid.field)
    (idx : list (nat * nat)) :
  Grid.meshgrid param1 param2 = (g1, g2) ->
  (forall i j, In (i, j) idx ->
     (i < length param1)%nat /\ (j < length param2)%nat
     /\ is_ok (evaluate_point this (point_2d param1 param2 (i, j))) = true) ->
  Forall (step_ok this (point_2d param1 param2)
            (filled_2d this param1 param2)
            (fun ij => scan_2d_body g1 g2 (fst ij) (snd ij))) idx.
Proof.
  intros Hg H. apply Forall_forall. intros [i j] Hin.
  destruct (H _ _ Hin) as (Hi & Hj & Hok).
  destruct (nth_error_defined _ Hi) as [x Hx].
  destruct (nth_error_defined _ Hj) as [y Hy].
  apply scan_2d_body_ok with (x := x) (y := y); try assumption.
  unfold point_2d in Hok; simpl in Hok.
  rewrite (nth_error_nth_R _ _ Hx), (nth_error_nth_R _ _ Hy) in Hok.
  exact Hok.
Qed.

(** A two-dimensional scan whose every grid point evaluates returns four
    fields with one row per value of the second parameter and one column
    per value of the first; entry [j][i] of each field belongs to the grid
    point (param1[i], param2[j]).  The scanner caches the grids and the two
    result fields, and the model has been called once per grid point, the
    first parameter in the outer loop. *)
Lemma scan_2d_ok (w : world) (param1_range param2_range : R * R)
    (n1 n2 : Z) (param1 param2 : Np.ndarray) :
  Grid.linspace (fst param1_range) (snd param1_range) n1 = Ok param1 ->
  Grid.linspace (fst param2_range) (snd param2_range) n2 = Ok param2 ->
  Forall (fun args => is_ok (evaluate_point (self w) args) = true)
    (scan_order_2d param1 param2) ->
  exists grid1 grid2 switches resonances,
    scan_2d param1_range param2_range (n1, n2) w
    = (Ok (grid1, grid2, switches, resonances),
       mkWorld (mkScanner (model_func (self w)) (data (self w))
                  (errors (self w)) (switch (self w))
                  (Some (grid1, grid2)) (Some switches) (Some resonances))
               (calls w ++ scan_order_2d param1 param2))
    /\ Grid.has_shape grid1 (Z.to_nat n2) (Z.to_nat n1)
    /\ Grid.has_shape grid2 (Z.to_nat n2) (Z.to_nat n1)
    /\ Grid.has_shape switches (Z.to_nat n2) (Z.to_nat n1)
    /\ Grid.has_shape resonances (Z.to_nat n2) (Z.to_nat n1)
    /\ forall i j, (i < Z.to_nat n1)%nat -> (j < Z.to_nat n2)%nat ->
         exists x y b r,
           nth_error param1 i = Some x
           /\ nth_error param2 j = Some y
           /\ Grid.getitem2 grid1 j i = Ok x
           /\ Grid.getitem2 grid2 j i = Ok y
           /\ evaluate_point (self w) [x; y] = Ok (b, r)
           /\ Grid.getitem2 switches j i = Ok b
           /\ Grid.getitem2 resonances j i = Ok r.
Proof.
  intros Hl1 Hl2 Hok.
  destruct (linspace_length _ _ _ Hl1) as [Hn1 Hlen1].
  destruct (linspace_length _ _ _ Hl2) as [Hn2 Hlen2].
  destruct (Grid.meshgrid param1 param2) as [g1 g2] eqn:Hg.
  destruct (meshgrid_shape param1 param2) as [Sg1 Sg2].
  rewrite Hg in Sg1, Sg2. simpl in Sg1, Sg2.
  set (idx := list_prod (seq 0 (length param1)) (seq 0 (length param2))).
  assert (Hsteps : Forall (step_ok (self w) (point_2d param1 param2)
                             (filled_2d (self w) param1 param2)
                             (fun ij => scan_2d_body g1 g2 (fst ij) (snd ij)))
                     idx).
  { apply scan_2d_steps; [exact Hg |]. intros i j Hin.
    pose proof (proj1 (in_index_pairs _ _ _ _) Hin) as [Hi Hj].
    split; [exact Hi |]. split; [exact Hj |].
    rewrite Forall_forall in Hok. apply Hok.
    rewrite <- scan_order_2d_points. apply in_map. exact Hin. }
  destruct (@for_each_ok _ _ _ _ _ _ _ Hsteps []
              (Grid.zeros_like g1, Grid.zeros_like g1) w
              (filled_2d_zeros (self w) Hg) eq_refl)
    as ([sw rs] & E & (H1 & H2 & Hd)).
  simpl in H1, H2, Hd.
  exists g1, g2, sw, rs. split.
  - unfold scan_2d. cbn [fst snd]. unfold bind, lift at 1 2.
    rewrite Hl1, Hl2, Hg.
    rewrite for_each_nested. unfold Grid.range.
    rewrite <- Hlen1, <- Hlen2. fold idx. rewrite E.
    unfold store_results, ret, log_calls; simpl.
    rewrite scan_order_2d_points. reflexivity.
  - rewrite <- Hlen1, <- Hlen2.
    repeat (split; [assumption |]).
    intros i j Hi Hj.
    destruct (Hd i j) as (x & y & b & r & Hx & Hy & Hv & Hb & Hr).
    { apply in_index_pairs. split; assumption. }
    destruct (meshgrid_getitem _ _ _ _ Hx Hy) as [G1 G2].
    rewrite Hg in G1, G2. simpl in G1, G2.
    exists x, y, b, r. repeat split; assumption.
Qed.

(** A two-dimensional scan whose model raises at the grid point [p], the
    points before it in loop order having evaluated, raises the same
    exception after calling the model on those points and on [p] only, and
    leaves the scanner as it was. *)
Lemma scan_2d_raise (w : world) (param1_range param2_range : R * R)
    (n1 n2 : Z) (param1 param2 : Np.ndarray)
    (pre post : list (list R)) (p : list R) (e : exn) :
  Grid.linspace (fst param1_range) (snd param1_range) n1 = Ok param1 ->
  Grid.linspace (fst param2_range) (snd param2_range) n2 = Ok param2 ->
  scan_order_2d param1 param2 = pre ++ p :: post ->
  Forall (fun args => is_ok (evaluate_point (self w) args) = true) pre ->
  model_func (self w) p = Raise e ->
  scan_2d param1_range param2_range (n1, n2) w
  = (Raise e, log_calls (pre ++ [p]) w).
Proof.
  intros Hl1 Hl2 Hord Hok He.
  destruct (linspace_length _ _ _ Hl1) as [Hn1 Hlen1].
  destruct (linspace_length _ _ _ Hl2) as [Hn2 Hlen2].
  destruct (Grid.meshgrid param1 param2) as [g1 g2] eqn:Hg.
  rewrite <- scan_order_2d_points in Hord.
  destruct (map_eq_app _ _ _ _ Hord) as (ipre & irest & Eidx & Epre & Erest).
  destruct (map_eq_cons _ _ Erest) as ([i j] & ipost & -> & Ep & _).
  assert (Hin : forall a b, In (a, b) (ipre ++ [(i, j)]) ->
                  (a < length param1)%nat /\ (b < length param2)%nat).
  { intros a b H. apply in_index_pairs. rewrite Eidx.
    apply in_app_iff in H. apply in_app_iff.
    destruct H as [H | [H | []]]; [left; exact H | right; left; exact H]. }
  assert (Hsteps : Forall (step_ok (self w) (point_2d param1 param2)
                             (filled_2d (self w) param1 param2)
                             (fun ij => scan_2d_body g1 g2 (fst ij) (snd ij)))
                     ipre).
  { apply scan_2d_steps; [exact Hg |]. intros a b H.
    destruct (Hin a b) as [Ha Hb]; [apply in_app_iff; left; exact H |].
    split; [exact Ha |]. split; [exact Hb |].
    rewrite Forall_forall in Hok. apply Hok.
    rewrite <- Epre. apply in_map. exact H. }
  destruct (Hin i j) as [Hi Hj]; [apply in_app_iff; right; left; reflexivity |].
  destruct (nth_error_defined _ Hi) as [x Hx].
  destruct (nth_error_defined _ Hj) as [y Hy].
  assert (Hp : p = [x; y]).
  { rewrite <- Ep. unfold point_2d; simpl.
    rewrite (nth_error_nth_R _ _ Hx), (nth_error_nth_R _ _ Hy). reflexivity. }
  assert (Hx' : forall s w',
             filled_2d (self w) param1 param2 ipre s ->
             self w' = self w ->
             scan_2d_body g1 g2 i j s w'
             = (Raise e, log_calls [point_2d param1 param2 (i, j)] w')).
  { intros s w' _ Hw'.
    apply scan_2d_body_raise with (this := self w) (x := x) (y := y);
      try assumption.
    rewrite <- Hp. exact He. }
  unfold scan_2d. cbn [fst snd]. unfold bind, lift at 1 2.
    rewrite Hl1, Hl2, Hg.
  rewrite for_each_nested. unfold Grid.range.
  rewrite <- Hlen1, <- Hlen2, Eidx.
  rewrite (@for_each_raise _ _ (self w) (point_2d param1 param2)
             (filled_2d (self w) param1 param2)
             (fun ij => scan_2d_body g1 g2 (fst ij) (snd ij))
             ipre ipost (i, j) e Hsteps Hx' _ w
             (filled_2d_zeros (self w) Hg) eq_refl).
  rewrite Epre, Ep. reflexivity.
Qed.

(** ** Concrete scans *)

Lemma linspace_unit : Grid.linspace 0 1 2 = Ok [0; 1].
Proof.
  unfold Grid.linspace; simpl. repeat f_equal; lra.
Qed.

Lemma steady_point_ok (args : list R) :
  is_ok (evaluate_point (self steady_world) args) = true.
Proof. reflexivity. Qed.

Lemma fragile_point_ok (x : R) (rest : list R) :
  x <> 1 ->
  is_ok (evaluate_point (self fragile_world) (x :: rest)) = true.
Proof.
  intro H. unfold evaluate_point; simpl.
  destruct (Req_dec_T x 1); [contradiction | reflexivity].
Qed.

Lemma fragile_point_raise (rest : list R) :
  model_func (self fragile_world) (1 :: rest) = Raise (ModelError 7).
Proof.
  simpl. destruct (Req_dec_T 1 1); [reflexivity | contradiction].
Qed.

(** ** Shape of the scan results *)

(** C2, as stated, fails for [scan_2d]: scanning 2 values of the first
    parameter and 3 of the second returns fields of 3 rows (of 2 entries
    each), not of 2 rows of 3 entries. *)
Lemma scan_2d_transposed_counterexample :
  exists grid1 grid2 switches resonances w',
    scan_2d (0, 1) (0, 1) (2, 3)%Z steady_world
    = (Ok (grid1, grid2, switches, resonances), w')
    /\ length switches = 3%nat
    /\ Forall (fun row => length row = 2%nat) switches
    /\ ~ Grid.has_shape switches 2 3.
Proof.
  destruct (@linspace_defined 0 1 3) as [param2 Hl2]; [lia |].
  destruct (@scan_2d_ok steady_world (0, 1) (0, 1) 2 3 [0; 1] param2
              linspace_unit Hl2)
    as (g1 & g2 & sw & rs & E & _ & _ & [Hlen Hrows] & _).
  { apply Forall_forall. intros args _. apply steady_point_ok. }
  exists g1, g2, sw, rs. eexists. split; [exact E |].
  split; [exact Hlen |]. split; [exact Hrows |].
  intros [H _]. rewrite Hlen in H. discriminate.
Qed.

(** C2 (amended): when the model evaluates at every grid point, [scan_1d]
    with a count n >= 0 returns three parallel sequences of length exactly
    n, and [scan_2d] with counts (nA, nB) returns coordinate, switch and
    resonance fields all of nB rows and nA columns: rows follow the second
    axis and columns the first, and entry [j][i] of every field belongs to
    the grid point (paramA[i], paramB[j]). *)
Theorem scan_result_shapes
    (w : world) (param_range rangeA rangeB : R * R) (n nA nB : Z) :
  (0 <= n)%Z -> (0 <= nA)%Z -> (0 <= nB)%Z ->
  (forall params,
      Grid.linspace (fst param_range) (snd param_range) n = Ok params ->
      Forall (fun args => is_ok (evaluate_point (self w) args) = true)
        (scan_order_1d params)) ->
  (forall paramA paramB,
      Grid.linspace (fst rangeA) (snd rangeA) nA = Ok paramA ->
      Grid.linspace (fst rangeB) (snd rangeB) nB = Ok paramB ->
      Forall (fun args => is_ok (evaluate_point (self w) args) = true)
        (scan_order_2d paramA paramB)) ->
  (exists params switches resonances w',
      scan_1d param_range n w = (Ok (params, switches, resonances), w')
      /\ length params = Z.to_nat n
      /\ length switches = Z.to_nat n
      /\ length resonances = Z.to_nat n
      /\ forall i, (i < Z.to_nat n)%nat ->
           exists p b r,
             nth_error params i = Some p
             /\ evaluate_point (self w) [p] = Ok (b, r)
             /\ nth_error switches i = Some b
             /\ nth_error resonances i = Some r)
  /\ (exists paramA paramB grid1 grid2 switches resonances w',
         Grid.linspace (fst rangeA) (snd rangeA) nA = Ok paramA
         /\ Grid.linspace (fst rangeB) (snd rangeB) nB = Ok paramB
         /\ scan_2d rangeA rangeB (nA, nB) w
            = (Ok (grid1, grid2, switches, resonances), w')
         /\ Grid.has_shape grid1 (Z.to_nat nB) (Z.to_nat nA)
         /\ Grid.has_shape grid2 (Z.to_nat nB) (Z.to_nat nA)
         /\ Grid.has_shape switches (Z.to_nat nB) (Z.to_nat nA)
         /\ Grid.has_shape resonances (Z.to_nat nB) (Z.to_nat nA)
         /\ forall i j, (i < Z.to_nat nA)%nat -> (j < Z.to_nat nB)%nat ->
              exists x y b r,
                nth_error paramA i = Some x
                /\ nth_error paramB j = Some y
                /\ Grid.getitem2 grid1 j i = Ok x
                /\ Grid.getitem2 grid2 j i = Ok y
                /\ evaluate_point (self w) [x; y] = Ok (b, r)
                /\ Grid.getitem2 switches j i = Ok b
                /\ Grid.getitem2 resonances j i = Ok r).
Proof.
  intros Hn HnA HnB H1 H2. split.
  - destruct (@linspace_defined (fst param_range) (snd param_range) n Hn)
      as [params Hl].
    assert (Hok : Forall (fun p => is_ok (evaluate_point (self w) [p]) = true)
                    params).
    { specialize (H1 params Hl). unfold scan_order_1d in H1.
      rewrite Forall_map in H1. exact H1. }
    destruct (@scan_1d_ok w param_range n params Hl Hok) as (sw & rs & E & R).
    exists params, sw, rs. eexists. split; [exact E | exact R].
  - destruct (@linspace_defined (fst rangeA) (snd rangeA) nA HnA)
      as [paramA HlA].
    destruct (@linspace_defined (fst rangeB) (snd rangeB) nB HnB)
      as [paramB HlB].
    destruct (@scan_2d_ok w rangeA rangeB nA nB paramA paramB HlA HlB
                (H2 _ _ HlA HlB))
      as (g1 & g2 & sw & rs & E & R).
    exists paramA, paramB, g1, g2, sw, rs. eexists.
    split; [exact HlA |]. split; [exact HlB |]. split; [exact E | exact R].
Qed.

Lemma scan_result_shapes_witness :
  (exists params switches resonances w',
      scan_1d (0, 5) 4 steady_world = (Ok (params, switches, resonances), w')
      /\ length params = 4%nat
      /\ length switches = 4%nat
      /\ length resonances = 4%nat)
  /\ (exists grid1 grid2 switches resonances w',
         scan_2d (60, 80) (0, 1) (2, 3)%Z steady_world
         = (Ok (grid1, grid2, switches, resonances), w')
         /\ Grid.has_shape grid1 3 2
         /\ Grid.has_shape grid2 3 2
         /\ Grid.has_shape switches 3 2
         /\ Grid.has_shape resonances 3 2).
Proof.
  destruct (@scan_result_shapes steady_world (0, 5) (60, 80) (0, 1) 4 2 3)
    as [A B]; try lia.
  - intros params _. apply Forall_forall. intros args _. reflexivity.
  - intros paramA paramB _ _. apply Forall_forall. intros args _.
    reflexivity.
  - split.
    + destruct A as (params & sw & rs & w' & E & L1 & L2 & L3 & _).
      exists params, sw, rs, w'. repeat split; assumption.
    + destruct B as (pA & pB & g1 & g2 & sw & rs & w' & _ & _ & E
                     & S1 & S2 & S3 & S4 & _).
      exists g1, g2, sw, rs, w'. repeat split; try assumption;
        try (apply S1 || apply S2 || apply S3 || apply S4).
Defined.

(** ** Failure of the model during a scan *)

(** C8: when the caller's model raises at a grid point (all points before
    it in loop order having evaluated), [scan_1d], and likewise [scan_2d],
    raises that same exception: no result arrays are returned, the model
    has been called on the points up to the failing one and on no later
    point, and the scanner object, cached grids and results included, is
    unchanged. *)
Theorem model_failure_propagates
    (w : world) (param_range rangeA rangeB : R * R) (n nA nB : Z)
    (pre post paramA paramB : Np.ndarray) (p : R) (e : exn)
    (pre2 post2 : list (list R)) (p2 : list R) (e2 : exn) :
  (Grid.linspace (fst param_range) (snd param_range) n
   = Ok (pre ++ p :: post) ->
   Forall (fun args => is_ok (evaluate_point (self w) args) = true)
     (scan_order_1d pre) ->
   model_func (self w) [p] = Raise e ->
   scan_1d param_range n w
   = (Raise e, mkWorld (self w) (calls w ++ scan_order_1d pre ++ [[p]])))
  /\ (Grid.linspace (fst rangeA) (snd rangeA) nA = Ok paramA ->
      Grid.linspace (fst rangeB) (snd rangeB) nB = Ok paramB ->
      scan_order_2d paramA paramB = pre2 ++ p2 :: post2 ->
      Forall (fun args => is_ok (evaluate_point (self w) args) = true)
        pre2 ->
      model_func (self w) p2 = Raise e2 ->
      scan_2d rangeA rangeB (nA, nB) w
      = (Raise e2, mkWorld (self w) (calls w ++ pre2 ++ [p2]))).
Proof.
  split.
  - intros Hl Hok He.
    unfold scan_order_1d in Hok. rewrite Forall_map in Hok.
    apply (@scan_1d_raise w param_range n pre post p e Hl Hok He).
  - intros HlA HlB Hord Hok2 He2.
    apply (@scan_2d_raise w rangeA rangeB nA nB paramA paramB pre2 post2 p2 e2
             HlA HlB Hord Hok2 He2).
Qed.

Lemma model_failure_propagates_witness :
  scan_1d (0, 1) 2 fragile_world
  = (Raise (ModelError 7), mkWorld (self fragile_world) [[0]; [1]])
  /\ scan_2d (0, 1) (0, 1) (2, 2)%Z fragile_world
     = (Raise (ModelError 7),
        mkWorld (self fragile_world) [[0; 0]; [0; 1]; [1; 0]]).
Proof.
  destruct (@model_failure_propagates fragile_world (0, 1) (0, 1) (0, 1)
              2 2 2 [0] [] [0; 1] [0; 1] 1 (ModelError 7)
              [[0; 0]; [0; 1]] [[1; 1]] [1; 0] (ModelError 7)) as [A B].
  split.
  - apply A.
    + exact linspace_unit.
    + repeat constructor. apply fragile_point_ok. lra.
    + apply fragile_point_raise.
  - apply B.
    + exact linspace_unit.
    + exact linspace_unit.
    + reflexivity.
    + repeat constructor; apply fragile_point_ok; lra.
    + apply fragile_point_raise.
Defined.

(** * Further properties of the code *)

(** ** The switch as a step function *)

(** The decision is the Heaviside step of the amplified inverse residual
    minus the threshold, the formula of the class docstring. *)
Theorem call_is_heaviside_of_margin (s : BesemerSwitch) (r : R) :
  call s r = heaviside (resonance_strength s r - threshold s)
  /\ (heaviside (resonance_strength s r - threshold s) = 1%Z
      <-> threshold s <= beta s / Rmax r (epsilon s)).
Proof.
  assert (E : call s r = heaviside (resonance_strength s r - threshold s)).
  { rewrite call_where. unfold heaviside, where_ge.
    destruct (Rle_dec (threshold s) (resonance_strength s r));
      destruct (Rle_dec 0 (resonance_strength s r - threshold s));
      try reflexivity; exfalso; lra. }
  split; [exact E |].
  rewrite <- E, call_where, where_ge_one. reflexivity.
Qed.

(** With a positive floor and a non-negative amplification the resonance
    strength never grows with the residual, and a residual that is resonant
    keeps every smaller residual resonant. *)
Theorem smaller_residual_stays_resonant (s : BesemerSwitch) (r1 r2 : R) :
  0 < epsilon s ->
  0 <= beta s ->
  r1 <= r2 ->
  resonance_strength s r2 <= resonance_strength s r1
  /\ (call s r2 = 1%Z -> call s r1 = 1%Z).
Proof.
  intros He Hb Hr.
  assert (M : resonance_strength s r2 <= resonance_strength s r1).
  { unfold resonance_strength. apply div_le_div_l;
      [exact Hb | apply Rmax_floor_pos; exact He |].
    apply Rle_max_compat_r; exact Hr. }
  split; [exact M |].
  rewrite !call_where, !where_ge_one. lra.
Qed.

Lemma smaller_residual_stays_resonant_witness :
  resonance_strength test_switch 2 <= resonance_strength test_switch 1
  /\ (call test_switch 2 = 1%Z -> call test_switch 1 = 1%Z).
Proof.
  apply (@smaller_residual_stays_resonant test_switch 1 2); switch_arith.
Defined.

Lemma resonance_strength_range (s : BesemerSwitch) (r : R) :
  0 < epsilon s ->
  0 <= beta s ->
  0 <= resonance_strength s r <= beta s / epsilon s.
Proof.
  intros He Hb. unfold resonance_strength. split.
  - apply Rmult_le_pos; [exact Hb |].
    apply Rlt_le, Rinv_0_lt_compat, Rmax_floor_pos, He.
  - apply div_le_div_l; [exact Hb | exact He | apply Rmax_r].
Qed.

(** With a positive floor and a non-negative amplification the resonance
    strength of any residual, negative ones included, lies between 0 and
    its saturation value beta / epsilon. *)
Theorem resonance_strength_bounded (s : BesemerSwitch) (r : R) :
  0 < epsilon s ->
  0 <= beta s ->
  0 <= resonance_strength s r <= beta s / epsilon s.
Proof. apply resonance_strength_range. Qed.

Lemma resonance_strength_bounded_witness :
  0 <= resonance_strength default_switch (-3)
       <= beta default_switch / epsilon default_switch.
Proof.
  apply (@resonance_strength_bounded default_switch (-3)); switch_arith.
Defined.

(** When even the saturation value beta / epsilon is below the threshold,
    no residual at all is resonant. *)
Theorem unreachable_threshold_never_resonant (s : BesemerSwitch) (r : R) :
  0 < epsilon s ->
  0 <= beta s ->
  beta s / epsilon s < threshold s ->
  call s r = 0%Z.
Proof.
  intros He Hb Ht. rewrite call_where. apply where_ge_zero.
  pose proof (@resonance_strength_range s r He Hb) as [_ H]. lra.
Qed.

Lemma unreachable_threshold_never_resonant_witness :
  call strict_switch 0 = 0%Z.
Proof.
  apply (@unreachable_threshold_never_resonant strict_switch 0);
    switch_arith.
Defined.

(** ** The residual metric as a distance *)

Lemma sum_square_zeros (a : Np.ndarray) :
  Forall (fun x => x = 0) a -> Np.sum (Np.square a) = 0.
Proof.
  induction 1 as [| x a Hx _ IH]; simpl; [reflexivity |].
  subst x. rewrite IH. ring.
Qed.

Lemma zip_minus_diag (d : Np.ndarray) :
  Forall (fun x => x = 0) (Np.zip_with Rminus d d).
Proof.
  induction d as [| x d IH]; simpl; constructor; [ring | exact IH].
Qed.

Lemma zip_div_zeros (a s : Np.ndarray) :
  Forall (fun x => x = 0) a ->
  Forall (fun x => 0 < x) s ->
  Forall (fun x => x = 0) (Np.zip_with Rdiv a s).
Proof.
  intro Ha. revert s.
  induction Ha as [| x a Hx _ IH]; intros [| y s] Hs; simpl;
    try constructor.
  - subst x. unfold Rdiv. ring.
  - apply IH. inversion Hs; assumption.
Qed.

(** The weighted residuals of equal-length data and model. *)
Lemma chi_squared_same_length (d m : Np.ndarray) (e : option Np.ndarray) :
  length m = length d ->
  match e with Some s => length s = length d | None => True end ->
  compute_chi_squared d m e
  = Ok (Np.sum (Np.square
         match e with
         | Some s => Np.zip_with Rdiv (Np.zip_with Rminus d m) s
         | None => Np.zip_with Rminus d m
         end)).
Proof.
  intros Hm He. unfold compute_chi_squared, Np.subtract, Np.divide.
  rewrite binop_same by congruence. simpl.
  destruct e as [s |]; simpl; [| reflexivity].
  rewrite binop_same by (rewrite zip_with_length; congruence). reflexivity.
Qed.

(** For data and model of equal length, with or without positive
    uncertainties of that length, the residual norm and chi-squared are
    never negative, and both are exactly zero when the model reproduces
    the data entry by entry. *)
Theorem exact_match_has_zero_residual
    (d m : Np.ndarray) (e : option Np.ndarray) :
  length m = length d ->
  match e with
  | Some s => length s = length d /\ Forall (fun x => 0 < x) s
  | None => True
  end ->
  exists n c,
    compute_residual_norm d m e = Ok n
    /\ compute_chi_squared d m e = Ok c
    /\ 0 <= n /\ 0 <= c
    /\ (d = m -> n = 0 /\ c = 0).
Proof.
  intros Hm He.
  assert (He' : match e with Some s => length s = length d | None => True end).
  { destruct e; [apply He | exact I]. }
  pose proof (chi_squared_same_length d m e Hm He') as Ec.
  set (res := match e with
              | Some s => Np.zip_with Rdiv (Np.zip_with Rminus d m) s
              | None => Np.zip_with Rminus d m
              end) in Ec.
  pose proof (sum_square_nonneg res) as Hc.
  exists (sqrt (Np.sum (Np.square res))), (Np.sum (Np.square res)).
  rewrite residual_norm_of_chi_squared, Ec.
  split; [reflexivity |]. split; [reflexivity |].
  split; [apply sqrt_pos |]. split; [exact Hc |].
  intros <-.
  assert (Z : Forall (fun x => x = 0) res).
  { unfold res. destruct e as [s |]; [| apply zip_minus_diag].
    apply zip_div_zeros; [apply zip_minus_diag | apply He]. }
  rewrite (sum_square_zeros Z), sqrt_0. split; reflexivity.
Qed.

Lemma exact_match_has_zero_residual_witness :
  exists n c,
    compute_residual_norm [3; 5] [3; 5] (Some [1; 2]) = Ok n
    /\ compute_chi_squared [3; 5] [3; 5] (Some [1; 2]) = Ok c
    /\ 0 <= n /\ 0 <= c
    /\ ([3; 5] = [3; 5] -> n = 0 /\ c = 0).
Proof.
  apply (@exact_match_has_zero_residual [3; 5] [3; 5] (Some [1; 2])).
  - reflexivity.
  - split; [reflexivity |]. repeat constructor; lra.
Defined.

Lemma broadcast_swap {A} (a b : list A) :
  Np.broadcast b a
  = match Np.broadcast a b with
    | Ok (a', b') => Ok (b', a')
    | Raise x => Raise x
    end.
Proof.
  unfold Np.broadcast. rewrite (Nat.eqb_sym (length b) (length a)).
  destruct (Nat.eqb (length a) (length b)) eqn:E; [reflexivity |].
  destruct a as [| x [| x' a]]; destruct b as [| y [| y' b]];
    simpl in *; try reflexivity; discriminate.
Qed.

Lemma broadcast_map_l {A} (f : A -> A) (a b : list A) :
  Np.broadcast (map f a) b
  = match Np.broadcast a b with
    | Ok (a', b') => Ok (map f a', b')
    | Raise x => Raise x
    end.
Proof.
  unfold Np.broadcast. rewrite length_map.
  destruct (Nat.eqb (length a) (length b)); [reflexivity |].
  destruct a as [| x [| x' a]]; destruct b as [| y [| y' b]];
    simpl; try reflexivity; rewrite ?map_repeat; reflexivity.
Qed.

Lemma zip_minus_swap (a b : Np.ndarray) :
  Np.zip_with Rminus b a = map Ropp (Np.zip_with Rminus a b).
Proof.
  revert b. induction a as [| x a IH]; intros [| y b]; simpl;
    try reflexivity.
  f_equal; [ring | apply IH].
Qed.

Lemma zip_div_opp (a s : Np.ndarray) :
  Np.zip_with Rdiv (map Ropp a) s = map Ropp (Np.zip_with Rdiv a s).
Proof.
  revert s. induction a as [| x a IH]; intros [| y s]; simpl;
    try reflexivity.
  f_equal; [unfold Rdiv; ring | apply IH].
Qed.

Lemma sum_square_opp (a : Np.ndarray) :
  Np.sum (Np.square (map Ropp a)) = Np.sum (Np.square a).
Proof.
  induction a as [| x a IH]; simpl; [reflexivity |]. rewrite IH. ring.
Qed.

Lemma chi_squared_swap (d m : Np.ndarray) (e : option Np.ndarray) :
  compute_chi_squared m d e = compute_chi_squared d m e.
Proof.
  unfold compute_chi_squared, Np.subtract, Np.divide, Np.binop.
  rewrite (broadcast_swap d m).
  destruct (Np.broadcast d m) as [[d' m'] |]; simpl; [| reflexivity].
  rewrite zip_minus_swap.
  destruct e as [s |]; simpl; [| rewrite sum_square_opp; reflexivity].
  rewrite broadcast_map_l.
  destruct (Np.broadcast (Np.zip_with Rminus d' m') s) as [[r' s'] |];
    simpl; [| reflexivity].
  rewrite zip_div_opp, sum_square_opp. reflexivity.
Qed.

(** Exchanging the data and the model changes neither chi-squared nor the
    residual norm, nor whether the computation raises. *)
Theorem residual_metric_symmetric
    (d m : Np.ndarray) (e : option Np.ndarray) :
  compute_chi_squared m d e = compute_chi_squared d m e
  /\ compute_residual_norm m d e = compute_residual_norm d m e.
Proof.
  split; [apply chi_squared_swap |].
  rewrite !residual_norm_of_chi_squared, chi_squared_swap. reflexivity.
Qed.

(** An uncertainty vector whose length differs from that of equal-length
    data and model, neither length being 1, makes both computations raise
    [ValueError]. *)
Theorem errors_length_mismatch_raises (d m s : Np.ndarray) :
  length m = length d ->
  length s <> length d ->
  length d <> 1%nat ->
  length s <> 1%nat ->
  compute_residual_norm d m (Some s) = Raise ValueError
  /\ compute_chi_squared d m (Some s) = Raise ValueError.
Proof.
  intros Hm Hs Hd Hs1.
  assert (E : compute_chi_squared d m (Some s) = Raise ValueError).
  { unfold compute_chi_squared, Np.subtract, Np.divide.
    rewrite binop_same by congruence. simpl.
    unfold Np.binop. rewrite broadcast_mismatch;
      [reflexivity | | | exact Hs1];
      rewrite zip_with_length by congruence; congruence. }
  split; [| exact E].
  rewrite residual_norm_of_chi_squared, E. reflexivity.
Qed.

Lemma errors_length_mismatch_raises_witness :
  compute_residual_norm [1; 2; 3] [1; 2; 4] (Some [1; 1]) = Raise ValueError
  /\ compute_chi_squared [1; 2; 3] [1; 2; 4] (Some [1; 1])
     = Raise ValueError.
Proof.
  apply (@errors_length_mismatch_raises [1; 2; 3] [1; 2; 4] [1; 1]);
    simpl; lia.
Defined.

Lemma zip_div_repeat (r : Np.ndarray) (sigma : R) :
  Np.zip_with Rdiv r (repeat sigma (length r))
  = map (fun x => x / sigma) r.
Proof.
  induction r as [| x r IH]; simpl; [reflexivity |]. f_equal. exact IH.
Qed.

Lemma divide_by_single (r : Np.ndarray) (sigma : R) :
  Np.divide r [sigma] = Ok (map (fun x => x / sigma) r).
Proof.
  unfold Np.divide, Np.binop, Np.broadcast.
  destruct r as [| x [| x' r]]; simpl; try reflexivity.
  f_equal. f_equal. f_equal. apply (zip_div_repeat r sigma).
Qed.

(** An uncertainty array holding a single value is applied to every
    entry: both computations return what they return for that value
    repeated once per data entry. *)
Theorem single_uncertainty_is_broadcast
    (d m : Np.ndarray) (sigma : R) :
  length m = length d ->
  compute_chi_squared d m (Some [sigma])
  = compute_chi_squared d m (Some (repeat sigma (length d)))
  /\ compute_residual_norm d m (Some [sigma])
     = compute_residual_norm d m (Some (repeat sigma (length d))).
Proof.
  intro Hm.
  assert (E : compute_chi_squared d m (Some [sigma])
              = compute_chi_squared d m (Some (repeat sigma (length d)))).
  { unfold compute_chi_squared, Np.subtract.
    rewrite binop_same by congruence. simpl.
    rewrite divide_by_single. unfold Np.divide.
    assert (L : length (Np.zip_with Rminus d m) = length d)
      by (apply zip_with_length; congruence).
    rewrite binop_same by (rewrite repeat_length; exact L).
    rewrite <- L, zip_div_repeat. reflexivity. }
  split; [exact E |].
  rewrite !residual_norm_of_chi_squared, E. reflexivity.
Qed.

Lemma single_uncertainty_is_broadcast_witness :
  compute_chi_squared [3; 5] [0; 1] (Some [2])
  = compute_chi_squared [3; 5] [0; 1] (Some (repeat 2 (length [3; 5])))
  /\ compute_residual_norm [3; 5] [0; 1] (Some [2])
     = compute_residual_norm [3; 5] [0; 1]
         (Some (repeat 2 (length [3; 5]))).
Proof.
  apply (@single_uncertainty_is_broadcast [3; 5] [0; 1] 2). reflexivity.
Defined.

(** ** The binary likelihood *)

Lemma call_antitone (s : BesemerSwitch) (n1 n2 : R) :
  0 < epsilon s -> 0 <= beta s -> n1 <= n2 ->
  call s n2 = 1%Z -> call s n1 = 1%Z.
Proof.
  intros He Hb Hn. rewrite !call_where, !where_ge_one.
  unfold resonance_strength. intro H.
  apply Rle_trans with (beta s / Rmax n2 (epsilon s)); [exact H |].
  apply div_le_div_l; [exact Hb | apply Rmax_floor_pos; exact He |].
  apply Rle_max_compat_r. exact Hn.
Qed.

(** The value of a likelihood is 1 exactly when its resonance map is at
    least the threshold; and, for a non-negative amplification, a model
    whose residual norm against the data does not exceed that of an
    accepted model is accepted too. *)
Theorem likelihood_accepts_closer_models
    (d : Np.ndarray) (e : option Np.ndarray) (b t : R)
    (m1 m2 : Np.ndarray) (n1 n2 : R) :
  (Likelihood.evaluate (Likelihood.new d e b t) m1 = Ok 1%Z
   <-> exists strength,
         Likelihood.resonance_map (Likelihood.new d e b t) m1 = Ok strength
         /\ strength >= t)
  /\ (0 <= b ->
      compute_residual_norm d m1 e = Ok n1 ->
      compute_residual_norm d m2 e = Ok n2 ->
      n1 <= n2 ->
      Likelihood.evaluate (Likelihood.new d e b t) m2 = Ok 1%Z ->
      Likelihood.evaluate (Likelihood.new d e b t) m1 = Ok 1%Z).
Proof.
  unfold Likelihood.evaluate, Likelihood.resonance_map, Likelihood.new;
    simpl. split.
  - destruct (compute_residual_norm d m1 e) as [n |]; simpl.
    + split.
      * intro H. injection H as H. eexists. split; [reflexivity |].
        rewrite call_where in H. apply where_ge_one in H.
        apply Rle_ge. exact H.
      * intros (st & E & H). injection E as <-. f_equal.
        rewrite call_where. apply where_ge_one. apply Rge_le. exact H.
    + split; [discriminate | intros (st & E & _); discriminate].
  - intros Hb E1 E2 Hn. rewrite E1, E2. simpl. intro H.
    injection H as H. f_equal.
    apply (@call_antitone (new_switch b t) n1 n2); simpl;
      try assumption. unfold default_epsilon. lra.
Qed.

Lemma unit_distance_accepted :
  Likelihood.evaluate (Likelihood.new [4] None 296 1) [3] = Ok 1%Z.
Proof.
  unfold Likelihood.evaluate, Likelihood.new; simpl. f_equal.
  rewrite call_where. apply where_ge_one.
  unfold resonance_strength; simpl.
  replace ((4 - 3) * (4 - 3) + 0) with 1 by ring. rewrite sqrt_1.
  rewrite Rmax_above by (unfold default_epsilon; lra). lra.
Qed.

Lemma likelihood_accepts_closer_models_witness :
  Likelihood.evaluate (Likelihood.new [4] None 296 1) [4] = Ok 1%Z.
Proof.
  destruct (@likelihood_accepts_closer_models [4] None 296 1 [4] [3]
              (sqrt ((4 - 4) * (4 - 4) + 0)) (sqrt ((4 - 3) * (4 - 3) + 0)))
    as [_ A].
  apply A.
  - lra.
  - reflexivity.
  - reflexivity.
  - apply sqrt_le_1_alt. lra.
  - exact unit_distance_accepted.
Defined.

(** A model identical to the data is accepted by every likelihood whose
    threshold is at most the saturation value beta / epsilon, the
    uncertainties being positive; its resonance map is that saturation
    value. *)
Theorem likelihood_accepts_exact_model
    (d : Np.ndarray) (e : option Np.ndarray) (b t : R) :
  match e with
  | Some s => length s = length d /\ Forall (fun x => 0 < x) s
  | None => True
  end ->
  b / default_epsilon >= t ->
  Likelihood.evaluate (Likelihood.new d e b t) d = Ok 1%Z
  /\ Likelihood.resonance_map (Likelihood.new d e b t) d
     = Ok (b / default_epsilon).
Proof.
  intros He Hb.
  assert (He' : match e with Some s => length s = length d | None => True end).
  { destruct e; [apply He | exact I]. }
  assert (En : compute_residual_norm d d e = Ok 0).
  { rewrite residual_norm_of_chi_squared.
    rewrite (chi_squared_same_length d d e eq_refl He'). simpl.
    assert (Z : Forall (fun x => x = 0)
                  match e with
                  | Some s => Np.zip_with Rdiv (Np.zip_with Rminus d d) s
                  | None => Np.zip_with Rminus d d
                  end).
    { destruct e as [s |]; [| apply zip_minus_diag].
      apply zip_div_zeros; [apply zip_minus_diag | apply He]. }
    rewrite (sum_square_zeros Z), sqrt_0. reflexivity. }
  assert (He0 : 0 <= default_epsilon) by (unfold default_epsilon; lra).
  assert (Es : resonance_strength (new_switch b t) 0 = b / default_epsilon).
  { unfold resonance_strength; simpl. rewrite (Rmax_floor He0).
    reflexivity. }
  unfold Likelihood.evaluate, Likelihood.resonance_map, Likelihood.new;
    simpl. rewrite En. simpl. split; f_equal; [| exact Es].
  rewrite call_where, Es. apply where_ge_one. simpl. apply Rge_le. exact Hb.
Qed.

Lemma likelihood_accepts_exact_model_witness :
  Likelihood.evaluate (Likelihood.new [3; 5] (Some [1; 2]) 296 1) [3; 5]
  = Ok 1%Z
  /\ Likelihood.resonance_map (Likelihood.new [3; 5] (Some [1; 2]) 296 1)
       [3; 5]
     = Ok (296 / default_epsilon).
Proof.
  apply (@likelihood_accepts_exact_model [3; 5] (Some [1; 2]) 296 1).
  - split; [reflexivity |]. repeat constructor; lra.
  - unfold default_epsilon. lra.
Defined.

(** ** What a scan leaves behind *)

Lemma for_each_self {B S} (body : B -> S -> M S) :
  (forall x s w, self (snd (body x s w)) = self w) ->
  forall xs s w, self (snd (for_each xs body s w)) = self w.
Proof.
  intros H xs. induction xs as [| x xs IH]; intros s w; simpl.
  - reflexivity.
  - unfold bind. pose proof (H x s w) as Hx.
    destruct (body x s w) as [[s' | e] w']; simpl in Hx.
    + rewrite IH. exact Hx.
    + exact Hx.
Qed.

Lemma scan_1d_body_self (item : nat * R) (acc : Np.ndarray * Np.ndarray)
    (w : world) :
  self (snd (scan_1d_body item acc w)) = self w.
Proof.
  destruct item as [i p], acc as [sw rs].
  unfold scan_1d_body, bind, call_model, get_self, lift, ret. simpl.
  destruct (model_func (self w) [p]); simpl; [| reflexivity].
  destruct (compute_residual_norm _ _ _); simpl; [| reflexivity].
  destruct (Grid.setitem sw i _); simpl; [| reflexivity].
  destruct (Grid.setitem rs i _); reflexivity.
Qed.

Lemma scan_1d_self (w : world) (param_range : R * R) (n_points : Z) :
  self (snd (scan_1d param_range n_points w)) = self w.
Proof.
  unfold scan_1d, bind, lift at 1 2 3.
  destruct (Grid.linspace _ _ n_points) as [params |]; [| reflexivity].
  destruct (Grid.zeros n_points) as [z |]; [| reflexivity].
  pose proof (for_each_self scan_1d_body scan_1d_body_self
                (Grid.enumerate params) (z, z) w) as H.
  destruct (for_each (Grid.enumerate params) scan_1d_body (z, z) w)
    as [[[sw rs] | e] w']; exact H.
Qed.

(** [scan_1d] never reassigns an attribute of the scanner, whatever the
    scanner's state and whether the scan returns or raises: the scanner
    after the scan is the scanner before it, and the two summaries return
    or raise exactly what they did before.  On a scanner fresh from
    [__init__] that is [ValueError]: only [scan_2d] provides what they
    read. *)
Theorem scan_1d_keeps_the_scanner
    (w : world) (param_range : R * R) (n_points : Z)
    (f : list R -> result Np.ndarray) (d : Np.ndarray)
    (e : option Np.ndarray) (b t : R) :
  let w' := snd (scan_1d param_range n_points w) in
  self w' = self w
  /\ find_manifold (self w') = find_manifold (self w)
  /\ analyze_geometry (self w') = analyze_geometry (self w)
  /\ find_manifold (new_scanner f d e b t) = Raise ValueError
  /\ analyze_geometry (new_scanner f d e b t) = Raise ValueError.
Proof.
  intro w'. unfold w'. rewrite scan_1d_self.
  repeat split; reflexivity.
Qed.

(** A negative point count makes either scan raise [ValueError] before the
    model is called and with the scanner untouched; a count of zero makes
    [scan_1d] return three empty arrays, again without calling the model. *)
Theorem degenerate_point_counts
    (w : world) (param_range rangeA rangeB : R * R) (n nA nB : Z) :
  (n < 0)%Z ->
  (nA < 0 \/ nB < 0)%Z ->
  scan_1d param_range n w = (Raise ValueError, w)
  /\ scan_2d rangeA rangeB (nA, nB) w = (Raise ValueError, w)
  /\ fst (scan_1d param_range 0 w) = Ok ([], [], [])
  /\ calls (snd (scan_1d param_range 0 w)) = calls w.
Proof.
  intros Hn Hab. split; [| split; [| split]].
  - unfold scan_1d, bind, lift at 1, Grid.linspace.
    rewrite (proj2 (Z.ltb_lt n 0) Hn). reflexivity.
  - unfold scan_2d. cbn [fst snd]. unfold bind, lift at 1 2, Grid.linspace.
    destruct (Z.ltb_spec nA 0) as [HA | HA]; [reflexivity |].
    destruct (Z.ltb_spec nB 0) as [HB | HB]; [reflexivity | lia].
  - reflexivity.
  - reflexivity.
Qed.

Lemma degenerate_point_counts_witness :
  scan_1d (0, 5) (-1) steady_world = (Raise ValueError, steady_world)
  /\ scan_2d (60, 80) (0, 1) (10, -3)%Z steady_world
     = (Raise ValueError, steady_world)
  /\ fst (scan_1d (0, 5) 0 steady_world) = Ok ([], [], [])
  /\ calls (snd (scan_1d (0, 5) 0 steady_world)) = calls steady_world.
Proof.
  apply (@degenerate_point_counts steady_world (0, 5) (60, 80) (0, 1)
           (-1) 10 (-3)); lia.
Defined.

(** ** Any failure at a grid point *)

Lemma scan_1d_body_fail (this : LatencyFreeScanner) (i : nat) (p : R)
    (e : exn) (acc : Np.ndarray * Np.ndarray) (w : world) :
  evaluate_point this [p] = Raise e ->
  self w = this ->
  scan_1d_body (i, p) acc w = (Raise e, log_calls [[p]] w).
Proof.
  intros He Hw. destruct acc as [sw rs]. unfold evaluate_point in He.
  unfold scan_1d_body, bind, call_model, get_self, lift, log_calls.
  rewrite Hw. simpl.
  destruct (model_func this [p]) as [model |]; simpl in *;
    [| congruence].
  destruct (compute_residual_norm (data this) model (errors this));
    simpl in *; congruence.
Qed.

Lemma scan_2d_body_fail (this : LatencyFreeScanner)
    (param1 param2 : Np.ndarray) (g1 g2 : Grid.field)
    (i j : nat) (x y : R) (e : exn)
    (acc : Grid.field * Grid.field) (w : world) :
  Grid.meshgrid param1 param2 = (g1, g2) ->
  nth_error param1 i = Some x ->
  nth_error param2 j = Some y ->
  evaluate_point this [x; y] = Raise e ->
  self w = this ->
  scan_2d_body g1 g2 i j acc w
  = (Raise e, log_calls [point_2d param1 param2 (i, j)] w).
Proof.
  intros Hg Hx Hy He Hw. destruct acc as [sw rs].
  destruct (meshgrid_getitem _ _ _ _ Hx Hy) as [G1 G2].
  rewrite Hg in G1, G2. simpl in G1, G2. unfold evaluate_point in He.
  unfold scan_2d_body, bind, call_model, get_self, lift, log_calls.
  rewrite G1, G2, Hw. unfold point_2d; simpl.
  rewrite (nth_error_nth_R _ _ Hx), (nth_error_nth_R _ _ Hy).
  destruct (model_func this [x; y]) as [model |]; simpl in *;
    [| congruence].
  destruct (compute_residual_norm (data this) model (errors this));
    simpl in *; congruence.
Qed.

Lemma scan_1d_fail (w : world) (param_range : R * R) (n_points : Z)
    (pre post : Np.ndarray) (p : R) (e : exn) :
  Grid.linspace (fst param_range) (snd param_range) n_points
  = Ok (pre ++ p :: post) ->
  Forall (fun q => is_ok (evaluate_point (self w) [q]) = true) pre ->
  evaluate_point (self w) [p] = Raise e ->
  scan_1d param_range n_points w
  = (Raise e, log_calls (scan_order_1d pre ++ [[p]]) w).
Proof.
  intros Hl Hok He.
  destruct (linspace_length _ _ _ Hl) as [Hn Hlen].
  destruct (enumerate_split pre post p) as (ipre & ipost & Een & Hs & Hin).
  assert (Hsteps : Forall (step_ok (self w) (fun item => [snd item])
                             (filled_1d (self w) (pre ++ p :: post))
                             scan_1d_body) ipre).
  { apply Forall_forall. intros [i q] Hiq.
    apply scan_1d_body_ok.
    - apply enumerate_nth. rewrite Een. apply in_or_app. left. exact Hiq.
    - rewrite Forall_forall in Hok. apply Hok. eapply Hin; eassumption. }
  unfold scan_1d, bind, lift at 1 2 3. rewrite Hl, zeros_ok by assumption.
  rewrite Een, <- Hlen.
  assert (Hx : forall s w',
             filled_1d (self w) (pre ++ p :: post) ipre s ->
             self w' = self w ->
             scan_1d_body (length pre, p) s w'
             = (Raise e, log_calls [[p]] w')).
  { intros s w' _ Hw'.
    apply scan_1d_body_fail with (this := self w); [exact He | exact Hw']. }
  rewrite (@for_each_raise _ _ (self w) (fun item => [snd item])
             (filled_1d (self w) (pre ++ p :: post)) scan_1d_body
             ipre ipost (length pre, p) e Hsteps Hx _ w
             (filled_1d_zeros _ _) eq_refl).
  simpl. unfold scan_order_1d. rewrite <- Hs, map_map. reflexivity.
Qed.

Lemma scan_2d_fail (w : world) (param1_range param2_range : R * R)
    (n1 n2 : Z) (param1 param2 : Np.ndarray)
    (pre post : list (list R)) (p : list R) (e : exn) :
  Grid.linspace (fst param1_range) (snd param1_range) n1 = Ok param1 ->
  Grid.linspace (fst param2_range) (snd param2_range) n2 = Ok param2 ->
  scan_order_2d param1 param2 = pre ++ p :: post ->
  Forall (fun args => is_ok (evaluate_point (self w) args) = true) pre ->
  evaluate_point (self w) p = Raise e ->
  scan_2d param1_range param2_range (n1, n2) w
  = (Raise e, log_calls (pre ++ [p]) w).
Proof.
  intros Hl1 Hl2 Hord Hok He.
  destruct (linspace_length _ _ _ Hl1) as [Hn1 Hlen1].
  destruct (linspace_length _ _ _ Hl2) as [Hn2 Hlen2].
  destruct (Grid.meshgrid param1 param2) as [g1 g2] eqn:Hg.
  rewrite <- scan_order_2d_points in Hord.
  destruct (map_eq_app _ _ _ _ Hord) as (ipre & irest & Eidx & Epre & Erest).
  destruct (map_eq_cons _ _ Erest) as ([i j] & ipost & -> & Ep & _).
  assert (Hin : forall a b, In (a, b) (ipre ++ [(i, j)]) ->
                  (a < length param1)%nat /\ (b < length param2)%nat).
  { intros a b H. apply in_index_pairs. rewrite Eidx.
    apply in_app_iff in H. apply in_app_iff.
    destruct H as [H | [H | []]]; [left; exact H | right; left; exact H]. }
  assert (Hsteps : Forall (step_ok (self w) (point_2d param1 param2)
                             (filled_2d (self w) param1 param2)
                             (fun ij => scan_2d_body g1 g2 (fst ij) (snd ij)))
                     ipre).
  { apply scan_2d_steps; [exact Hg |]. intros a b H.
    destruct (Hin a b) as [Ha Hb]; [apply in_app_iff; left; exact H |].
    split; [exact Ha |]. split; [exact Hb |].
    rewrite Forall_forall in Hok. apply Hok.
    rewrite <- Epre. apply in_map. exact H. }
  destruct (Hin i j) as [Hi Hj]; [apply in_app_iff; right; left; reflexivity |].
  destruct (nth_error_defined _ Hi) as [x Hx].
  destruct (nth_error_defined _ Hj) as [y Hy].
  assert (Hp : p = [x; y]).
  { rewrite <- Ep. unfold point_2d; simpl.
    rewrite (nth_error_nth_R _ _ Hx), (nth_error_nth_R _ _ Hy). reflexivity. }
  assert (Hx' : forall s w',
             filled_2d (self w) param1 param2 ipre s ->
             self w' = self w ->
             scan_2d_body g1 g2 i j s w'
             = (Raise e, log_calls [point_2d param1 param2 (i, j)] w')).
  { intros s w' _ Hw'.
    apply scan_2d_body_fail with (this := self w) (x := x) (y := y);
      try assumption.
    rewrite <- Hp. exact He. }
  unfold scan_2d. cbn [fst snd]. unfold bind, lift at 1 2.
  rewrite Hl1, Hl2, Hg.
  rewrite for_each_nested. unfold Grid.range.
  rewrite <- Hlen1, <- Hlen2, Eidx.
  rewrite (@for_each_raise _ _ (self w) (point_2d param1 param2)
             (filled_2d (self w) param1 param2)
             (fun ij => scan_2d_body g1 g2 (fst ij) (snd ij))
             ipre ipost (i, j) e Hsteps Hx' _ w
             (filled_2d_zeros (self w) Hg) eq_refl).
  rewrite Epre, Ep. reflexivity.
Qed.

Lemma wrong_length_point_fails (this : LatencyFreeScanner)
    (args : list R) (model : Np.ndarray) :
  model_func this args = Ok model ->
  length (data this) <> length model ->
  length (data this) <> 1%nat ->
  length model <> 1%nat ->
  evaluate_point this args = Raise ValueError.
Proof.
  intros Hm H1 H2 H3. unfold evaluate_point. rewrite Hm. simpl.
  unfold compute_residual_norm, Np.subtract, Np.binop.
  rewrite (broadcast_mismatch _ _ H1 H2 H3). reflexivity.
Qed.

(** A prediction of the wrong length ends a scan like a raising model: when
    the model returns, at a grid point, an array whose length differs from
    that of the data (neither length being 1), and every earlier point
    evaluated, [scan_1d], and likewise [scan_2d], raises [ValueError]
    after calling the model on the points up to that one only, and the
    scanner is unchanged. *)
Theorem wrong_length_prediction_stops_scan
    (w : world) (param_range rangeA rangeB : R * R) (n nA nB : Z)
    (pre post paramA paramB : Np.ndarray) (p : R) (model : Np.ndarray)
    (pre2 post2 : list (list R)) (p2 : list R) (model2 : Np.ndarray) :
  (length (data (self w)) <> 1%nat ->
   Grid.linspace (fst param_range) (snd param_range) n
   = Ok (pre ++ p :: post) ->
   Forall (fun args => is_ok (evaluate_point (self w) args) = true)
     (scan_order_1d pre) ->
   model_func (self w) [p] = Ok model ->
   length (data (self w)) <> length model -> length model <> 1%nat ->
   scan_1d param_range n w
   = (Raise ValueError,
      mkWorld (self w) (calls w ++ scan_order_1d pre ++ [[p]])))
  /\ (length (data (self w)) <> 1%nat ->
      Grid.linspace (fst rangeA) (snd rangeA) nA = Ok paramA ->
      Grid.linspace (fst rangeB) (snd rangeB) nB = Ok paramB ->
      scan_order_2d paramA paramB = pre2 ++ p2 :: post2 ->
      Forall (fun args => is_ok (evaluate_point (self w) args) = true)
        pre2 ->
      model_func (self w) p2 = Ok model2 ->
      length (data (self w)) <> length model2 -> length model2 <> 1%nat ->
      scan_2d rangeA rangeB (nA, nB) w
      = (Raise ValueError, mkWorld (self w) (calls w ++ pre2 ++ [p2]))).
Proof.
  split.
  - intros Hd Hl Hok Hm Hlm Hm1.
    unfold scan_order_1d in Hok. rewrite Forall_map in Hok.
    apply (@scan_1d_fail w param_range n pre post p ValueError Hl Hok).
    apply wrong_length_point_fails with (model := model); assumption.
  - intros Hd HlA HlB Hord Hok2 Hm2 Hlm2 Hm21.
    apply (@scan_2d_fail w rangeA rangeB nA nB paramA paramB pre2 post2 p2
             ValueError HlA HlB Hord Hok2).
    apply wrong_length_point_fails with (model := model2); assumption.
Qed.

Lemma ragged_point_ok (x : R) (rest : list R) :
  x <> 1 ->
  is_ok (evaluate_point (self ragged_world) (x :: rest)) = true.
Proof.
  intro H. unfold evaluate_point; simpl.
  destruct (Req_dec_T x 1); [contradiction | reflexivity].
Qed.

Lemma ragged_point_short (rest : list R) :
  model_func (self ragged_world) (1 :: rest) = Ok [1; 1].
Proof.
  simpl. destruct (Req_dec_T 1 1); [reflexivity | contradiction].
Qed.

Lemma wrong_length_prediction_stops_scan_witness :
  scan_1d (0, 1) 2 ragged_world
  = (Raise ValueError, mkWorld (self ragged_world) [[0]; [1]])
  /\ scan_2d (0, 1) (0, 1) (2, 2)%Z ragged_world
     = (Raise ValueError,
        mkWorld (self ragged_world) [[0; 0]; [0; 1]; [1; 0]]).
Proof.
  destruct (@wrong_length_prediction_stops_scan ragged_world
              (0, 1) (0, 1) (0, 1) 2 2 2
              [0] [] [0; 1] [0; 1] 1 [1; 1]
              [[0; 0]; [0; 1]] [[1; 1]] [1; 0] [1; 1]) as [A B].
  split.
  - apply A.
    + simpl. lia.
    + exact linspace_unit.
    + repeat constructor. apply ragged_point_ok. lra.
    + apply ragged_point_short.
    + simpl. lia.
    + simpl. lia.
  - apply B.
    + simpl. lia.
    + exact linspace_unit.
    + exact linspace_unit.
    + reflexivity.
    + repeat constructor; apply ragged_point_ok; lra.
    + apply ragged_point_short.
    + simpl. lia.
    + simpl. lia.
Defined.

(** ** The grid of a scan *)

Lemma linspace_last (start stop : R) (num : Z) (a : Np.ndarray) :
  (2 <= num)%Z ->
  Grid.linspace start stop num = Ok a ->
  nth_error a (Z.to_nat num - 1) = Some stop.
Proof.
  intros Hn Hl.
  unfold Grid.linspace in Hl.
  destruct (Z.ltb_spec num 0) as [H | _]; [lia |].
  set (N := Z.to_nat num) in *.
  assert (HN : (2 <= N)%nat) by (unfold N; lia).
  rewrite (proj2 (Nat.ltb_lt 1 N)) in Hl by lia.
  injection Hl as <-.
  match goal with
  | |- nth_error (removelast ?l ++ _) _ = _ => set (y := l)
  end.
  assert (Ly : length y = N).
  { unfold y. rewrite length_map.
    destruct (0 <? N - 1)%nat; rewrite !length_map, length_seq;
      reflexivity. }
  rewrite removelast_firstn_len, Ly.
  rewrite nth_error_app2 by (rewrite length_firstn; lia).
  rewrite length_firstn, Ly.
  replace (N - 1 - Nat.min (Nat.pred N) N)%nat with 0%nat by lia.
  reflexivity.
Qed.

(** With at least two points and a model that evaluates everywhere, the
    last entry of the grid that [scan_1d] returns is the maximum of the
    range itself, and the last call of the model is made there. *)
Theorem scan_1d_grid_ends_at_max
    (w : world) (lo hi : R) (n : Z) :
  (2 <= n)%Z ->
  (forall p, is_ok (evaluate_point (self w) [p]) = true) ->
  exists params switches resonances w',
    scan_1d (lo, hi) n w = (Ok (params, switches, resonances), w')
    /\ length params = Z.to_nat n
    /\ nth_error params (Z.to_nat n - 1) = Some hi
    /\ calls w' = calls w ++ scan_order_1d params
    /\ last (calls w') [] = [hi].
Proof.
  intros Hn Hok.
  destruct (@linspace_defined lo hi n) as [params Hl]; [lia |].
  destruct (@scan_1d_ok w (lo, hi) n params Hl) as (sw & rs & E & Hlen & _).
  { apply Forall_forall. intros p _. apply Hok. }
  pose proof (@linspace_last lo hi n params Hn Hl) as Hlast.
  exists params, sw, rs. eexists. split; [exact E |].
  split; [exact Hlen |]. split; [exact Hlast |].
  split; [reflexivity |]. simpl.
  apply nth_error_split in Hlast. destruct Hlast as (l1 & l2 & Ep & L1).
  assert (l2 = []).
  { apply (f_equal (@length R)) in Ep. rewrite length_app in Ep.
    simpl in Ep. destruct l2; [reflexivity | simpl in Ep; lia]. }
  subst l2. rewrite Ep. unfold scan_order_1d.
  rewrite map_app, app_assoc. simpl. apply last_last.
Qed.

Lemma scan_1d_grid_ends_at_max_witness :
  exists params switches resonances w',
    scan_1d (0, 5) 1000 steady_world
    = (Ok (params, switches, resonances), w')
    /\ length params = Z.to_nat 1000
    /\ nth_error params (Z.to_nat 1000 - 1) = Some 5
    /\ calls w' = calls steady_world ++ scan_order_1d params
    /\ last (calls w') [] = [5].
Proof.
  apply (@scan_1d_grid_ends_at_max steady_world 0 5 1000); [lia |].
  intro p. reflexivity.
Defined.

(** ** Summaries of a cached scan *)

Lemma has_shape_lengths {A} (g : list (list A)) (rows cols : nat) :
  length g = rows -> Forall (fun row => length row = cols) g ->
  map (@length A) g = repeat cols rows.
Proof.
  intros Hl Hf. subst rows.
  induction Hf as [| row g Hr _ IH]; simpl; [reflexivity |].
  rewrite Hr, IH. reflexivity.
Qed.

Lemma concat_length_by_rows {A B} (g : list (list A)) (m : list (list B)) :
  map (@length A) g = map (@length B) m ->
  length (concat g) = length (concat m).
Proof.
  revert m. induction g as [| row g IH]; intros [| r m] H; simpl in *;
    try discriminate; [reflexivity |].
  injection H as Hr Hg. rewrite !length_app, Hr, (IH m Hg). reflexivity.
Qed.

Lemma concat_length_shape (g : Grid.field) (rows cols : nat) :
  Grid.has_shape g rows cols -> length (concat g) = (rows * cols)%nat.
Proof.
  intros [Hl Hf]. subst rows.
  induction Hf as [| row g Hr _ IH]; simpl; [reflexivity |].
  rewrite length_app, Hr, IH. reflexivity.
Qed.

Lemma filter_snd_combine_length {A} (xs : list A) (ms : list bool) :
  length xs = length ms ->
  length (map fst (filter snd (combine xs ms)))
  = length (filter (fun b => b) ms).
Proof.
  revert ms. induction xs as [| x xs IH]; intros [| b ms] H; simpl in *;
    try discriminate; [reflexivity |].
  injection H as H. destruct b; simpl; rewrite (IH ms H); reflexivity.
Qed.

Lemma filter_length_le {A} (f : A -> bool) (l : list A) :
  (length (filter f l) <= length l)%nat.
Proof.
  induction l as [| x l IH]; simpl; [lia |].
  destruct (f x); simpl; lia.
Qed.

Lemma select_same_shape (g sv : Grid.field) (rows cols : nat) :
  Grid.has_shape g rows cols ->
  Grid.has_shape sv rows cols ->
  Grid.select g (Mask.eq_one sv) = Ok (selected g (Mask.eq_one sv))
  /\ length (selected g (Mask.eq_one sv)) = count_true (Mask.eq_one sv).
Proof.
  intros [Hgl Hgf] [Hsl Hsf].
  assert (E : map (@length R) g = map (@length bool) (Mask.eq_one sv)).
  { rewrite eq_one_lengths, (has_shape_lengths Hgl Hgf),
      (has_shape_lengths Hsl Hsf). reflexivity. }
  split.
  - unfold Grid.select.
    destruct (list_eq_dec Nat.eq_dec _ _) as [_ | N];
      [reflexivity | contradiction].
  - unfold selected, count_true. apply filter_snd_combine_length.
    apply concat_length_by_rows. exact E.
Qed.

(** The summaries of a scanner whose cached grids and switch field share
    one shape. *)
Lemma summaries_of_cache (this : LatencyFreeScanner)
    (sv g1 g2 : Grid.field) (rows cols : nat) :
  switch_values this = Some sv ->
  grid_points this = Some (g1, g2) ->
  Grid.has_shape g1 rows cols ->
  Grid.has_shape g2 rows cols ->
  Grid.has_shape sv rows cols ->
  let mask := Mask.eq_one sv in
  let k := count_true mask in
  find_manifold this = Ok (selected g1 mask, selected g2 mask)
  /\ length (selected g1 mask) = k
  /\ length (selected g2 mask) = k
  /\ (k <= rows * cols)%nat
  /\ exists d,
       analyze_geometry this = Ok d
       /\ dict_get d "n_resonant_points" = Some (PyInt (Z.of_nat k))
       /\ dict_get d "total_points" = Some (PyInt (Z.of_nat (rows * cols)))
       /\ dict_get d "resonance_fraction"
          = Some (PyFloat (INR k / INR (rows * cols)))
       /\ dict_get d "manifold_size" = Some (PyInt (Z.of_nat k))
       /\ ((0 < k)%nat ->
           dict_get d "param1_mean"
           = Some (PyFloat (Np.mean (selected g1 mask)))
           /\ dict_get d "param1_std"
              = Some (PyFloat (Np.std (selected g1 mask)))
           /\ dict_get d "param2_mean"
              = Some (PyFloat (Np.mean (selected g2 mask)))
           /\ dict_get d "param2_std"
              = Some (PyFloat (Np.std (selected g2 mask))))
       /\ (k = 0%nat ->
           dict_get d "param1_mean" = None
           /\ dict_get d "param1_std" = None
           /\ dict_get d "param2_mean" = None
           /\ dict_get d "param2_std" = None).
Proof.
  intros Hsv Hg S1 S2 Ss mask k.
  destruct (select_same_shape S1 Ss) as [E1 L1].
  destruct (select_same_shape S2 Ss) as [E2 L2].
  fold mask in E1, E2, L1, L2. fold k in L1, L2.
  assert (Ef : find_manifold this = Ok (selected g1 mask, selected g2 mask)).
  { unfold find_manifold. rewrite Hsv, Hg. fold mask. rewrite E1, E2.
    reflexivity. }
  assert (Hk : (k <= rows * cols)%nat).
  { unfold k, count_true. rewrite <- (concat_length_shape Ss).
    rewrite <- (concat_length_by_rows mask sv (eq_one_lengths sv)).
    apply filter_length_le. }
  split; [exact Ef |]. split; [exact L1 |]. split; [exact L2 |].
  split; [exact Hk |].
  unfold analyze_geometry. rewrite Hsv, Ef. simpl.
  unfold Grid.size. rewrite (concat_length_shape Ss), L1.
  fold mask. unfold Mask.count. fold (count_true mask). fold k.
  rewrite <- INR_IZR_INZ.
  destruct (Nat.ltb_spec 0 k) as [Hp | Hz];
    (eexists; split; [reflexivity |]);
    do 4 (split; [reflexivity |]);
    (split; intro H; [try lia | try lia]);
    repeat split; reflexivity.
Qed.

Lemma combine_selected {A B} (xs : list A) (ys : list B) (ms : list bool) :
  length xs = length ms -> length ys = length ms ->
  combine (map fst (filter snd (combine xs ms)))
          (map fst (filter snd (combine ys ms)))
  = map fst (filter snd (combine (combine xs ys) ms)).
Proof.
  revert xs ys. induction ms as [| b ms IH]; intros [| x xs] [| y ys] Hx Hy;
    simpl in *; try discriminate; try reflexivity.
  injection Hx as Hx. injection Hy as Hy.
  destruct b; simpl; rewrite (IH xs ys Hx Hy); reflexivity.
Qed.

Lemma nth_error_combine {A B} (xs : list A) (ys : list B)
    (t : nat) (x : A) (y : B) :
  nth_error (combine xs ys) t = Some (x, y)
  <-> nth_error xs t = Some x /\ nth_error ys t = Some y.
Proof.
  revert ys t. induction xs as [| a xs IH]; intros [| b ys] [| t]; simpl;
    try (split; [discriminate | intros [H1 H2]; discriminate]).
  - split; [intro H; injection H as -> ->; split; reflexivity |].
    intros [H1 H2]. injection H1 as ->. injection H2 as ->. reflexivity.
  - apply IH.
Qed.

Lemma getitem_nth_error (a : Np.ndarray) (i : nat) (v : R) :
  Grid.getitem a i = Ok v <-> nth_error a i = Some v.
Proof.
  unfold Grid.getitem. destruct (nth_error a i); split; intro H;
    try discriminate; congruence.
Qed.

Lemma getitem2_flat (g : Grid.field) (rows cols j i : nat) (v : R) :
  Grid.has_shape g rows cols -> (j < rows)%nat -> (i < cols)%nat ->
  (Grid.getitem2 g j i = Ok v
   <-> nth_error (concat g) (j * cols + i) = Some v).
Proof.
  intros [Hl Hf]. revert rows Hl j.
  induction Hf as [| row g Hr _ IH]; intros rows Hl j Hj Hi; simpl in *.
  - lia.
  - destruct j as [| j]; simpl.
    + rewrite nth_error_app1 by lia. unfold Grid.getitem2; simpl.
      apply getitem_nth_error.
    + rewrite nth_error_app2 by lia.
      replace (cols + j * cols + i - length row)%nat
        with (j * cols + i)%nat by lia.
      unfold Grid.getitem2; simpl.
      apply (IH (length g) eq_refl j); lia.
Qed.

Lemma flat_index (rows cols t : nat) :
  (t < rows * cols)%nat ->
  exists j i, (j < rows)%nat /\ (i < cols)%nat /\ t = (j * cols + i)%nat.
Proof.
  intro H. assert (Hc : cols <> 0%nat) by nia.
  exists (t / cols)%nat, (t mod cols)%nat. split; [| split].
  - apply Nat.Div0.div_lt_upper_bound. nia.
  - apply Nat.mod_upper_bound. exact Hc.
  - rewrite (Nat.div_mod_eq t cols) at 1. lia.
Qed.

Lemma eq_one_true (v : R) : Np.eq_one v = true <-> v = 1.
Proof.
  unfold Np.eq_one. destruct (Req_dec_T v 1); split; intro H;
    try reflexivity; try assumption; try discriminate; contradiction.
Qed.

Lemma mask_flat (sv : Grid.field) (t : nat) :
  nth_error (concat (Mask.eq_one sv)) t = Some true
  <-> nth_error (concat sv) t = Some 1.
Proof.
  unfold Mask.eq_one. rewrite <- concat_map, nth_error_map.
  destruct (nth_error (concat sv) t) as [v |]; simpl.
  - split; intro H.
    + injection H as H. apply eq_one_true in H. congruence.
    + injection H as ->. f_equal. apply eq_one_true. reflexivity.
  - split; discriminate.
Qed.

(** The k-th entries of the two arrays selected by the mask of [sv] are
    the coordinates of one grid cell whose switch value is 1, and every
    such cell appears at some k. *)
Lemma selected_pairs (g1 g2 sv : Grid.field) (rows cols : nat) (x y : R) :
  Grid.has_shape g1 rows cols ->
  Grid.has_shape g2 rows cols ->
  Grid.has_shape sv rows cols ->
  ((exists k,
       nth_error (selected g1 (Mask.eq_one sv)) k = Some x
       /\ nth_error (selected g2 (Mask.eq_one sv)) k = Some y)
   <-> (exists j i,
          (j < rows)%nat /\ (i < cols)%nat
          /\ Grid.getitem2 g1 j i = Ok x
          /\ Grid.getitem2 g2 j i = Ok y
          /\ Grid.getitem2 sv j i = Ok 1)).
Proof.
  intros S1 S2 Ss.
  pose proof (concat_length_shape S1) as L1.
  pose proof (concat_length_shape S2) as L2.
  pose proof (concat_length_shape Ss) as Ls.
  assert (Lm : length (concat (Mask.eq_one sv)) = (rows * cols)%nat).
  { rewrite (concat_length_by_rows (Mask.eq_one sv) sv (eq_one_lengths sv)).
    exact Ls. }
  assert (Ec : combine (selected g1 (Mask.eq_one sv))
                 (selected g2 (Mask.eq_one sv))
               = map fst (filter snd
                   (combine (combine (concat g1) (concat g2))
                      (concat (Mask.eq_one sv))))).
  { unfold selected. apply combine_selected; congruence. }
  split.
  - intros (k & Hx & Hy).
    assert (Hin : In (x, y) (combine (selected g1 (Mask.eq_one sv))
                               (selected g2 (Mask.eq_one sv)))).
    { apply nth_error_In with k. apply nth_error_combine. split; assumption. }
    rewrite Ec in Hin. apply in_map_iff in Hin.
    destruct Hin as ([[x' y'] b] & Exy & Hin). simpl in Exy.
    injection Exy as -> ->.
    apply filter_In in Hin. destruct Hin as [Hin Hb]. simpl in Hb. subst b.
    apply In_nth_error in Hin. destruct Hin as [t Ht].
    apply nth_error_combine in Ht. destruct Ht as [Ht Hm].
    apply nth_error_combine in Ht. destruct Ht as [Ht1 Ht2].
    assert (Hlt : (t < rows * cols)%nat).
    { rewrite <- L1. apply nth_error_Some. rewrite Ht1. discriminate. }
    destruct (flat_index _ _ Hlt) as (j & i & Hj & Hi & ->).
    exists j, i. split; [exact Hj |]. split; [exact Hi |].
    split; [apply (getitem2_flat x S1 Hj Hi); exact Ht1 |].
    split; [apply (getitem2_flat y S2 Hj Hi); exact Ht2 |].
    apply (getitem2_flat 1 Ss Hj Hi). apply mask_flat. exact Hm.
  - intros (j & i & Hj & Hi & G1 & G2 & Gs).
    apply (getitem2_flat x S1 Hj Hi) in G1.
    apply (getitem2_flat y S2 Hj Hi) in G2.
    apply (getitem2_flat 1 Ss Hj Hi) in Gs. apply mask_flat in Gs.
    assert (Hin : In (x, y) (combine (selected g1 (Mask.eq_one sv))
                               (selected g2 (Mask.eq_one sv)))).
    { rewrite Ec. apply in_map_iff. exists ((x, y), true).
      split; [reflexivity |]. apply filter_In. split; [| reflexivity].
      apply nth_error_In with (j * cols + i)%nat.
      apply nth_error_combine. split; [| exact Gs].
      apply nth_error_combine. split; assumption. }
    apply In_nth_error in Hin. destruct Hin as [k Hk].
    apply nth_error_combine in Hk. exists k. exact Hk.
Qed.

(** On a scanner whose cached grids and switch field share one shape,
    [find_manifold] returns two arrays of one length, the number of switch
    values equal to 1, and [analyze_geometry] reports that number as
    resonant points and manifold size, the number of grid cells as total
    points and their ratio as the resonant fraction; the four mean and
    standard-deviation entries are present exactly when that number is
    positive, computed from the two arrays of [find_manifold]. *)
Theorem summaries_count_the_manifold (this : LatencyFreeScanner)
    (sv g1 g2 : Grid.field) (rows cols : nat) :
  switch_values this = Some sv ->
  grid_points this = Some (g1, g2) ->
  Grid.has_shape g1 rows cols ->
  Grid.has_shape g2 rows cols ->
  Grid.has_shape sv rows cols ->
  exists m1 m2 d,
    find_manifold this = Ok (m1, m2)
    /\ length m1 = count_true (Mask.eq_one sv)
    /\ length m2 = count_true (Mask.eq_one sv)
    /\ (length m1 <= rows * cols)%nat
    /\ analyze_geometry this = Ok d
    /\ dict_get d "n_resonant_points" = Some (PyInt (Z.of_nat (length m1)))
    /\ dict_get d "manifold_size" = Some (PyInt (Z.of_nat (length m1)))
    /\ dict_get d "total_points" = Some (PyInt (Z.of_nat (rows * cols)))
    /\ dict_get d "resonance_fraction"
       = Some (PyFloat (INR (length m1) / INR (rows * cols)))
    /\ ((0 < length m1)%nat ->
        dict_get d "param1_mean" = Some (PyFloat (Np.mean m1))
        /\ dict_get d "param1_std" = Some (PyFloat (Np.std m1))
        /\ dict_get d "param2_mean" = Some (PyFloat (Np.mean m2))
        /\ dict_get d "param2_std" = Some (PyFloat (Np.std m2)))
    /\ (length m1 = 0%nat ->
        dict_get d "param1_mean" = None
        /\ dict_get d "param1_std" = None
        /\ dict_get d "param2_mean" = None
        /\ dict_get d "param2_std" = None).
Proof.
  intros Hsv Hg S1 S2 Ss.
  destruct (summaries_of_cache this Hsv Hg S1 S2 Ss)
    as (Ef & L1 & L2 & Hk & d & Ea & D1 & D2 & D3 & D4 & D5 & D6).
  exists (selected g1 (Mask.eq_one sv)), (selected g2 (Mask.eq_one sv)), d.
  split; [exact Ef |]. split; [exact L1 |]. split; [exact L2 |].
  rewrite L1. repeat (split; [assumption |]). exact D6.
Qed.

Lemma summaries_count_the_manifold_witness :
  exists m1 m2 d,
    find_manifold lit_scanner = Ok (m1, m2)
    /\ length m1 = count_true (Mask.eq_one [[0; 1]; [1; 0]])
    /\ length m2 = count_true (Mask.eq_one [[0; 1]; [1; 0]])
    /\ (length m1 <= 2 * 2)%nat
    /\ analyze_geometry lit_scanner = Ok d
    /\ dict_get d "n_resonant_points" = Some (PyInt (Z.of_nat (length m1)))
    /\ dict_get d "manifold_size" = Some (PyInt (Z.of_nat (length m1)))
    /\ dict_get d "total_points" = Some (PyInt (Z.of_nat (2 * 2)))
    /\ dict_get d "resonance_fraction"
       = Some (PyFloat (INR (length m1) / INR (2 * 2)))
    /\ ((0 < length m1)%nat ->
        dict_get d "param1_mean" = Some (PyFloat (Np.mean m1))
        /\ dict_get d "param1_std" = Some (PyFloat (Np.std m1))
        /\ dict_get d "param2_mean" = Some (PyFloat (Np.mean m2))
        /\ dict_get d "param2_std" = Some (PyFloat (Np.std m2)))
    /\ (length m1 = 0%nat ->
        dict_get d "param1_mean" = None
        /\ dict_get d "param1_std" = None
        /\ dict_get d "param2_mean" = None
        /\ dict_get d "param2_std" = None).
Proof.
  apply (@summaries_count_the_manifold lit_scanner
           [[0; 1]; [1; 0]] [[1; 2]; [1; 2]] [[3; 3]; [4; 4]] 2 2);
    try reflexivity; split; try reflexivity; repeat constructor.
Defined.

(** On such a scanner the two arrays of [find_manifold] are aligned:
    their k-th entries are the two coordinates of one grid cell whose
    switch value is 1, and every such cell is listed. *)
Theorem find_manifold_lists_resonant_cells (this : LatencyFreeScanner)
    (sv g1 g2 : Grid.field) (rows cols : nat) :
  switch_values this = Some sv ->
  grid_points this = Some (g1, g2) ->
  Grid.has_shape g1 rows cols ->
  Grid.has_shape g2 rows cols ->
  Grid.has_shape sv rows cols ->
  exists m1 m2,
    find_manifold this = Ok (m1, m2)
    /\ forall x y,
         (exists k, nth_error m1 k = Some x /\ nth_error m2 k = Some y)
         <-> (exists j i,
                (j < rows)%nat /\ (i < cols)%nat
                /\ Grid.getitem2 g1 j i = Ok x
                /\ Grid.getitem2 g2 j i = Ok y
                /\ Grid.getitem2 sv j i = Ok 1).
Proof.
  intros Hsv Hg S1 S2 Ss.
  destruct (summaries_of_cache this Hsv Hg S1 S2 Ss) as (Ef & _).
  exists (selected g1 (Mask.eq_one sv)), (selected g2 (Mask.eq_one sv)).
  split; [exact Ef |]. intros x y. apply selected_pairs; assumption.
Qed.

Lemma find_manifold_lists_resonant_cells_witness :
  exists m1 m2,
    find_manifold lit_scanner = Ok (m1, m2)
    /\ forall x y,
         (exists k, nth_error m1 k = Some x /\ nth_error m2 k = Some y)
         <-> (exists j i,
                (j < 2)%nat /\ (i < 2)%nat
                /\ Grid.getitem2 [[1; 2]; [1; 2]] j i = Ok x
                /\ Grid.getitem2 [[3; 3]; [4; 4]] j i = Ok y
                /\ Grid.getitem2 [[0; 1]; [1; 0]] j i = Ok 1).
Proof.
  apply (@find_manifold_lists_resonant_cells lit_scanner
           [[0; 1]; [1; 0]] [[1; 2]; [1; 2]] [[3; 3]; [4; 4]] 2 2);
    try reflexivity; split; try reflexivity; repeat constructor.
Defined.

(** ** From a scan to its manifold *)

Lemma evaluate_point_parts (this : LatencyFreeScanner) (args : list R)
    (b r : R) :
  evaluate_point this args = Ok (b, r) ->
  exists model residual,
    model_func this args = Ok model
    /\ compute_residual_norm (data this) model (errors this) = Ok residual
    /\ b = IZR (call (switch this) residual)
    /\ r = resonance_strength (switch this) residual.
Proof.
  intro H.
  assert (Hok : is_ok (evaluate_point this args) = true)
    by (rewrite H; reflexivity).
  destruct (evaluate_point_ok _ _ Hok) as (model & residual & Em & Er & Ev).
  exists model, residual. rewrite Ev in H. injection H as <- <-.
  repeat split; assumption.
Qed.

(** After a two-dimensional scan whose every grid point evaluated, the
    summaries do not raise: [analyze_geometry] counts nB * nA grid points,
    and [find_manifold] lists, as aligned pairs, exactly the grid points
    (paramA[i], paramB[j]) at which the switch of the model's residual
    is 1. *)
Theorem manifold_of_scan_is_resonant_grid
    (w : world) (rangeA rangeB : R * R) (nA nB : Z)
    (paramA paramB : Np.ndarray) :
  Grid.linspace (fst rangeA) (snd rangeA) nA = Ok paramA ->
  Grid.linspace (fst rangeB) (snd rangeB) nB = Ok paramB ->
  Forall (fun args => is_ok (evaluate_point (self w) args) = true)
    (scan_order_2d paramA paramB) ->
  let w' := snd (scan_2d rangeA rangeB (nA, nB) w) in
  exists m1 m2 d,
    find_manifold (self w') = Ok (m1, m2)
    /\ length m2 = length m1
    /\ analyze_geometry (self w') = Ok d
    /\ dict_get d "total_points"
       = Some (PyInt (Z.of_nat (Z.to_nat nB * Z.to_nat nA)))
    /\ dict_get d "n_resonant_points" = Some (PyInt (Z.of_nat (length m1)))
    /\ dict_get d "manifold_size" = Some (PyInt (Z.of_nat (length m1)))
    /\ forall x y,
         (exists k, nth_error m1 k = Some x /\ nth_error m2 k = Some y)
         <-> (In x paramA /\ In y paramB
              /\ exists model residual,
                   model_func (self w) [x; y] = Ok model
                   /\ compute_residual_norm (data (self w)) model
                        (errors (self w)) = Ok residual
                   /\ call (switch (self w)) residual = 1%Z).
Proof.
  intros HlA HlB Hok w'.
  destruct (linspace_length _ _ _ HlA) as [_ LA].
  destruct (linspace_length _ _ _ HlB) as [_ LB].
  destruct (@scan_2d_ok w rangeA rangeB nA nB paramA paramB HlA HlB Hok)
    as (g1 & g2 & sw & rs & E & S1 & S2 & Ss & _ & Hc).
  unfold w'. rewrite E. cbn [snd self].
  set (this := mkScanner _ _ _ _ _ _ _).
  destruct (@summaries_of_cache this sw g1 g2 (Z.to_nat nB) (Z.to_nat nA)
              eq_refl eq_refl S1 S2 Ss)
    as (Ef & L1 & L2 & _ & d & Ea & D1 & D2 & _ & D4 & _).
  exists (selected g1 (Mask.eq_one sw)), (selected g2 (Mask.eq_one sw)), d.
  split; [exact Ef |]. split; [congruence |]. split; [exact Ea |].
  split; [exact D2 |]. rewrite L1. split; [exact D1 |]. split; [exact D4 |].
  intros x y. rewrite (selected_pairs x y S1 S2 Ss). split.
  - intros (j & i & Hj & Hi & G1 & G2 & Gs).
    destruct (Hc i j Hi Hj) as (x' & y' & b & r & Hx & Hy & G1' & G2' & Ev
                                & Gs' & _).
    assert (x' = x) by congruence. assert (y' = y) by congruence.
    assert (b = 1) by congruence. subst x' y' b.
    split; [eapply nth_error_In; exact Hx |].
    split; [eapply nth_error_In; exact Hy |].
    destruct (evaluate_point_parts _ _ Ev)
      as (model & residual & Em & Er & Eb & _).
    exists model, residual. split; [exact Em |]. split; [exact Er |].
    apply eq_IZR. symmetry. exact Eb.
  - intros (Hx & Hy & model & residual & Em & Er & Ec).
    apply In_nth_error in Hx. destruct Hx as [i Hx].
    apply In_nth_error in Hy. destruct Hy as [j Hy].
    assert (Hi : (i < Z.to_nat nA)%nat).
    { rewrite <- LA. apply nth_error_Some. rewrite Hx. discriminate. }
    assert (Hj : (j < Z.to_nat nB)%nat).
    { rewrite <- LB. apply nth_error_Some. rewrite Hy. discriminate. }
    destruct (Hc i j Hi Hj) as (x' & y' & b & r & Hx' & Hy' & G1' & G2' & Ev
                                & Gs' & _).
    assert (x' = x) by congruence. assert (y' = y) by congruence.
    subst x' y'.
    destruct (evaluate_point_parts _ _ Ev)
      as (model' & residual' & Em' & Er' & Eb & _).
    assert (model' = model) by congruence. subst model'.
    assert (residual' = residual) by congruence. subst residual'.
    exists j, i. repeat (split; [assumption |]).
    rewrite Gs', Eb, Ec. reflexivity.
Qed.

Lemma manifold_of_scan_is_resonant_grid_witness :
  exists m1 m2 d,
    find_manifold
      (self (snd (scan_2d (0, 1) (0, 1) (2, 2)%Z steady_world)))
    = Ok (m1, m2)
    /\ length m2 = length m1
    /\ analyze_geometry
         (self (snd (scan_2d (0, 1) (0, 1) (2, 2)%Z steady_world)))
       = Ok d
    /\ dict_get d "total_points" = Some (PyInt 4)
    /\ dict_get d "n_resonant_points" = Some (PyInt (Z.of_nat (length m1)))
    /\ dict_get d "manifold_size" = Some (PyInt (Z.of_nat (length m1))).
Proof.
  destruct (@manifold_of_scan_is_resonant_grid steady_world (0, 1) (0, 1)
              2 2 [0; 1] [0; 1] linspace_unit linspace_unit)
    as (m1 & m2 & d & A & B & C & D & E & F & _).
  - apply Forall_forall. intros args _. reflexivity.
  - exists m1, m2, d. repeat (split; [assumption |]). exact F.
Defined.

(** ** The dipole between two contexts *)

Lemma any_iff_count (m : Mask.mask) :
  Mask.any m = true <-> (0 < count_true m)%nat.
Proof.
  unfold Mask.any, count_true.
  induction (concat m) as [| b l IH]; simpl.
  - split; [discriminate | lia].
  - destruct b; simpl; [split; [lia | reflexivity] | exact IH].
Qed.

Lemma zip_and_rows (a b : Mask.mask) :
  map (@length bool) a = map (@length bool) b ->
  Mask.and a b = Ok (Np.zip_with (Np.zip_with andb) a b).
Proof.
  intro H. unfold Mask.and.
  rewrite broadcast_same
    by (apply (f_equal (@length nat)) in H; rewrite !length_map in H;
        exact H).
  simpl. revert b H.
  induction a as [| r a IH]; intros [| s b] H; simpl in *;
    try discriminate; [reflexivity |].
  injection H as Hr Hab.
  rewrite (broadcast_same r s Hr). simpl.
  rewrite (IH b Hab). reflexivity.
Qed.

Lemma zip_and_comm (a b : Mask.mask) :
  Np.zip_with (Np.zip_with andb) a b = Np.zip_with (Np.zip_with andb) b a.
Proof.
  revert b. induction a as [| r a IH]; intros [| s b]; simpl;
    try reflexivity.
  f_equal; [| apply IH].
  revert s. induction r as [| x r IHr]; intros [| y s]; simpl;
    try reflexivity.
  f_equal; [apply andb_comm | apply IHr].
Qed.

Lemma zip_and_diag (a : Mask.mask) :
  Np.zip_with (Np.zip_with andb) a a = a.
Proof.
  induction a as [| r a IH]; simpl; [reflexivity |].
  f_equal; [| exact IH].
  induction r as [| x r IHr]; simpl; [reflexivity |].
  f_equal; [apply andb_diag | exact IHr].
Qed.

Lemma arctan2_origin : Np.arctan2 0 0 = 0.
Proof.
  unfold Np.arctan2.
  destruct (Rlt_dec 0 0) as [H | _]; [lra | reflexivity].
Qed.

(** The result of [find_dipole_structure] on two switch fields that both
    have a resonant cell, all four fields sharing one shape. *)
Lemma dipole_of_two_poles
    (planck supernova grid_H0 grid_Om0 : Grid.field) (rows cols : nat) :
  Grid.has_shape planck rows cols ->
  Grid.has_shape supernova rows cols ->
  Grid.has_shape grid_H0 rows cols ->
  Grid.has_shape grid_Om0 rows cols ->
  Mask.any (Mask.eq_one planck) = true ->
  Mask.any (Mask.eq_one supernova) = true ->
  let p1x := Np.mean (selected grid_H0 (Mask.eq_one planck)) in
  let p1y := Np.mean (selected grid_Om0 (Mask.eq_one planck)) in
  let p2x := Np.mean (selected grid_H0 (Mask.eq_one supernova)) in
  let p2y := Np.mean (selected grid_Om0 (Mask.eq_one supernova)) in
  find_dipole_structure planck supernova grid_H0 grid_Om0
  = Ok [("planck_pole", PyTuple p1x p1y);
        ("supernova_pole", PyTuple p2x p2y);
        ("dipole_distance",
         PyFloat (sqrt ((p2x - p1x) * (p2x - p1x)
                        + (p2y - p1y) * (p2y - p1y))));
        ("dipole_angle",
         PyFloat (Np.arctan2 (p2y - p1y) (p2x - p1x) * 180 / PI));
        ("overlap",
         PyInt (Mask.count
                  (Np.zip_with (Np.zip_with andb)
                     (Mask.eq_one planck) (Mask.eq_one supernova))))]%string.
Proof.
  intros Sp Ss SH SO Ap As p1x p1y p2x p2y.
  destruct (select_same_shape SH Sp) as [EHp _].
  destruct (select_same_shape SO Sp) as [EOp _].
  destruct (select_same_shape SH Ss) as [EHs _].
  destruct (select_same_shape SO Ss) as [EOs _].
  unfold find_dipole_structure, locate_pole.
  rewrite Ap, As, EHp, EOp, EHs, EOs.
  cbn [rbind dict_set dict_get truthy andb String.eqb Ascii.eqb Bool.eqb].
  rewrite zip_and_rows; [reflexivity |].
  rewrite !eq_one_lengths.
  destruct Sp as [Hp1 Hp2], Ss as [Hs1 Hs2].
  rewrite (has_shape_lengths Hp1 Hp2), (has_shape_lengths Hs1 Hs2).
  reflexivity.
Qed.

(** When both contexts have a resonant cell on a shared grid, exchanging
    them exchanges the two poles and keeps the dipole distance, which is
    never negative, and the overlap count. *)
Theorem dipole_distance_and_overlap_symmetric
    (planck supernova grid_H0 grid_Om0 : Grid.field) (rows cols : nat) :
  Grid.has_shape planck rows cols ->
  Grid.has_shape supernova rows cols ->
  Grid.has_shape grid_H0 rows cols ->
  Grid.has_shape grid_Om0 rows cols ->
  Mask.any (Mask.eq_one planck) = true ->
  Mask.any (Mask.eq_one supernova) = true ->
  exists d1 d2 dist,
    find_dipole_structure planck supernova grid_H0 grid_Om0 = Ok d1
    /\ find_dipole_structure supernova planck grid_H0 grid_Om0 = Ok d2
    /\ dict_get d1 "dipole_distance" = Some (PyFloat dist)
    /\ dict_get d2 "dipole_distance" = Some (PyFloat dist)
    /\ 0 <= dist
    /\ dict_get d1 "overlap" = dict_get d2 "overlap"
    /\ dict_get d1 "planck_pole" = dict_get d2 "supernova_pole"
    /\ dict_get d1 "supernova_pole" = dict_get d2 "planck_pole".
Proof.
  intros Sp Ss SH SO Ap As.
  pose proof (dipole_of_two_poles Sp Ss SH SO Ap As) as E1.
  pose proof (dipole_of_two_poles Ss Sp SH SO As Ap) as E2.
  cbv zeta in E1, E2.
  eexists. eexists. eexists.
  split; [exact E1 |]. split; [exact E2 |].
  split; [reflexivity |]. split.
  - cbn [dict_get String.eqb Ascii.eqb Bool.eqb]. do 2 f_equal. f_equal. ring.
  - split; [apply sqrt_pos |].
    cbn [dict_get String.eqb Ascii.eqb Bool.eqb].
    rewrite zip_and_comm. repeat split; reflexivity.
Qed.

(** A context compared with itself on its grid has dipole distance 0,
    angle 0, two equal poles and an overlap equal to its number of
    resonant cells. *)
Theorem dipole_of_a_context_with_itself
    (switches grid_H0 grid_Om0 : Grid.field) (rows cols : nat) :
  Grid.has_shape switches rows cols ->
  Grid.has_shape grid_H0 rows cols ->
  Grid.has_shape grid_Om0 rows cols ->
  Mask.any (Mask.eq_one switches) = true ->
  exists d,
    find_dipole_structure switches switches grid_H0 grid_Om0 = Ok d
    /\ dict_get d "dipole_distance" = Some (PyFloat 0)
    /\ dict_get d "dipole_angle" = Some (PyFloat 0)
    /\ dict_get d "overlap"
       = Some (PyInt (Z.of_nat (count_true (Mask.eq_one switches))))
    /\ dict_get d "planck_pole" = dict_get d "supernova_pole".
Proof.
  intros Ss SH SO As.
  pose proof (dipole_of_two_poles Ss Ss SH SO As As) as E.
  cbv zeta in E. eexists. split; [exact E |].
  cbn [dict_get String.eqb Ascii.eqb Bool.eqb].
  rewrite !Rminus_diag, Rmult_0_l, Rplus_0_l, sqrt_0, arctan2_origin.
  rewrite zip_and_diag. repeat split.
  do 2 f_equal. unfold Rdiv. ring.
Qed.

(** When one context has no resonant cell and the other has one, the
    result keeps [None] for the empty context's pole and for distance,
    angle and overlap, and reports the other context's pole, whichever of
    the two arguments is the empty one. *)
Theorem dipole_needs_both_poles
    (empty lit grid_H0 grid_Om0 : Grid.field) (rows cols : nat) :
  Mask.any (Mask.eq_one empty) = false ->
  Mask.any (Mask.eq_one lit) = true ->
  Grid.has_shape lit rows cols ->
  Grid.has_shape grid_H0 rows cols ->
  Grid.has_shape grid_Om0 rows cols ->
  let pole :=
    PyTuple (Np.mean (selected grid_H0 (Mask.eq_one lit)))
            (Np.mean (selected grid_Om0 (Mask.eq_one lit))) in
  find_dipole_structure empty lit grid_H0 grid_Om0
  = Ok [("planck_pole", PyNone); ("supernova_pole", pole);
        ("dipole_distance", PyNone); ("dipole_angle", PyNone);
        ("overlap", PyNone)]%string
  /\ find_dipole_structure lit empty grid_H0 grid_Om0
     = Ok [("planck_pole", pole); ("supernova_pole", PyNone);
           ("dipole_distance", PyNone); ("dipole_angle", PyNone);
           ("overlap", PyNone)]%string.
Proof.
  intros Ae Al Sl SH SO pole.
  destruct (select_same_shape SH Sl) as [EH _].
  destruct (select_same_shape SO Sl) as [EO _].
  unfold find_dipole_structure, locate_pole.
  rewrite Ae, Al, EH, EO. split; reflexivity.
Qed.

Lemma eq_one_one : Np.eq_one 1 = true.
Proof. apply eq_one_true. reflexivity. Qed.

Lemma any_diagonal : Mask.any (Mask.eq_one [[0; 1]; [1; 0]]) = true.
Proof.
  unfold Mask.any, Mask.eq_one; simpl.
  rewrite eq_one_zero, eq_one_one. reflexivity.
Qed.

Lemma any_top_row : Mask.any (Mask.eq_one [[1; 1]; [0; 0]]) = true.
Proof.
  unfold Mask.any, Mask.eq_one; simpl. rewrite eq_one_one. reflexivity.
Qed.

Lemma any_blank : Mask.any (Mask.eq_one [[0; 0]; [0; 0]]) = false.
Proof.
  unfold Mask.any, Mask.eq_one; simpl. rewrite eq_one_zero. reflexivity.
Qed.

Lemma two_by_two (a b c d : R) : Grid.has_shape [[a; b]; [c; d]] 2 2.
Proof. split; [reflexivity | repeat constructor]. Qed.

Lemma dipole_distance_and_overlap_symmetric_witness :
  exists d1 d2 dist,
    find_dipole_structure [[0; 1]; [1; 0]] [[1; 1]; [0; 0]]
      [[1; 2]; [1; 2]] [[3; 3]; [4; 4]] = Ok d1
    /\ find_dipole_structure [[1; 1]; [0; 0]] [[0; 1]; [1; 0]]
         [[1; 2]; [1; 2]] [[3; 3]; [4; 4]] = Ok d2
    /\ dict_get d1 "dipole_distance" = Some (PyFloat dist)
    /\ dict_get d2 "dipole_distance" = Some (PyFloat dist)
    /\ 0 <= dist
    /\ dict_get d1 "overlap" = dict_get d2 "overlap"
    /\ dict_get d1 "planck_pole" = dict_get d2 "supernova_pole"
    /\ dict_get d1 "supernova_pole" = dict_get d2 "planck_pole".
Proof.
  apply (@dipole_distance_and_overlap_symmetric
           [[0; 1]; [1; 0]] [[1; 1]; [0; 0]]
           [[1; 2]; [1; 2]] [[3; 3]; [4; 4]] 2 2);
    try apply two_by_two; [exact any_diagonal | exact any_top_row].
Defined.

Lemma dipole_of_a_context_with_itself_witness :
  exists d,
    find_dipole_structure [[0; 1]; [1; 0]] [[0; 1]; [1; 0]]
      [[1; 2]; [1; 2]] [[3; 3]; [4; 4]] = Ok d
    /\ dict_get d "dipole_distance" = Some (PyFloat 0)
    /\ dict_get d "dipole_angle" = Some (PyFloat 0)
    /\ dict_get d "overlap"
       = Some (PyInt (Z.of_nat
                        (count_true (Mask.eq_one [[0; 1]; [1; 0]]))))
    /\ dict_get d "planck_pole" = dict_get d "supernova_pole".
Proof.
  apply (@dipole_of_a_context_with_itself [[0; 1]; [1; 0]]
           [[1; 2]; [1; 2]] [[3; 3]; [4; 4]] 2 2);
    try apply two_by_two. exact any_diagonal.
Defined.

Lemma dipole_needs_both_poles_witness :
  find_dipole_structure [[0; 0]; [0; 0]] [[0; 1]; [1; 0]]
    [[1; 2]; [1; 2]] [[3; 3]; [4; 4]]
  = Ok [("planck_pole", PyNone);
        ("supernova_pole",
         PyTuple
           (Np.mean (selected [[1; 2]; [1; 2]]
                       (Mask.eq_one [[0; 1]; [1; 0]])))
           (Np.mean (selected [[3; 3]; [4; 4]]
                       (Mask.eq_one [[0; 1]; [1; 0]]))));
        ("dipole_distance", PyNone); ("dipole_angle", PyNone);
        ("overlap", PyNone)]%string.
Proof.
  apply (@dipole_needs_both_poles [[0; 0]; [0; 0]] [[0; 1]; [1; 0]]
           [[1; 2]; [1; 2]] [[3; 3]; [4; 4]] 2 2);
    try apply two_by_two; [exact any_blank | exact any_diagonal].
Defined.

(** ** The Planck constraints *)

Lemma planck_chi_squared_nonneg (this : PlanckCMBData.t) (H0 Om0 : R) :
  0 <= PlanckCMBData.compute_chi_squared_simple this H0 Om0.
Proof.
  unfold PlanckCMBData.compute_chi_squared_simple. cbv zeta.
  apply Rplus_le_le_0_compat; apply Rle_0_sqr.
Qed.

Lemma planck_chi_squared_at_best_fit (this : PlanckCMBData.t) :
  PlanckCMBData.compute_chi_squared_simple this
    (PlanckCMBData.fiducial_H0 this) (PlanckCMBData.fiducial_Om0 this) = 0.
Proof.
  unfold PlanckCMBData.compute_chi_squared_simple. cbv zeta.
  unfold Rsqr, Rdiv. ring.
Qed.

Lemma sqr_scaled_le (a b sigma : R) :
  0 < sigma -> Rabs a <= Rabs b -> Rsqr (a / sigma) <= Rsqr (b / sigma).
Proof.
  intros Hs H. apply Rsqr_le_abs_1. unfold Rdiv. rewrite !Rabs_mult.
  apply Rmult_le_compat_r; [apply Rabs_pos | exact H].
Qed.

Lemma planck_call_antitone (this : PlanckCMBData.t) (s : BesemerSwitch)
    (H0 Om0 H0' Om0' : R) :
  0 < epsilon s -> 0 <= beta s ->
  PlanckCMBData.compute_chi_squared_simple this H0 Om0
  <= PlanckCMBData.compute_chi_squared_simple this H0' Om0' ->
  call s (PlanckCMBData.compute_residual_norm this H0' Om0') = 1%Z ->
  call s (PlanckCMBData.compute_residual_norm this H0 Om0) = 1%Z.
Proof.
  intros He Hb Hc.
  apply call_antitone; [exact He | exact Hb |].
  unfold PlanckCMBData.compute_residual_norm. cbv zeta.
  apply sqrt_le_1_alt. exact Hc.
Qed.

(** The simplified Planck chi-squared and the Planck residual norm are
    never negative, and both vanish exactly at the best-fit point
    (fiducial_H0, fiducial_Om0). *)
Theorem planck_chi_squared_vanishes_at_best_fit
    (this : PlanckCMBData.t) (H0 Om0 : R) :
  let chi2 := PlanckCMBData.compute_chi_squared_simple this H0 Om0 in
  let norm := PlanckCMBData.compute_residual_norm this H0 Om0 in
  0 <= chi2
  /\ 0 <= norm
  /\ (chi2 = 0 <-> H0 = PlanckCMBData.fiducial_H0 this
                   /\ Om0 = PlanckCMBData.fiducial_Om0 this)
  /\ (norm = 0 <-> H0 = PlanckCMBData.fiducial_H0 this
                   /\ Om0 = PlanckCMBData.fiducial_Om0 this).
Proof.
  intros chi2 norm.
  pose proof (planck_chi_squared_nonneg this H0 Om0) as Hc. fold chi2 in Hc.
  assert (Z : chi2 = 0 <-> H0 = PlanckCMBData.fiducial_H0 this
                            /\ Om0 = PlanckCMBData.fiducial_Om0 this).
  { split.
    - unfold chi2, PlanckCMBData.compute_chi_squared_simple. cbv zeta.
      intro H. apply Rplus_sqr_eq_0 in H. destruct H as [Ha Hb].
      unfold Rdiv in Ha, Hb.
      apply Rmult_integral in Ha. apply Rmult_integral in Hb.
      split; [destruct Ha as [Ha | Ha] | destruct Hb as [Hb | Hb]]; lra.
    - intros [-> ->]. apply planck_chi_squared_at_best_fit. }
  split; [exact Hc |]. split; [apply sqrt_pos |]. split; [exact Z |].
  rewrite <- Z. unfold norm, PlanckCMBData.compute_residual_norm.
  cbv zeta. fold chi2.
  split; intro H; [apply sqrt_eq_0; assumption | rewrite H; apply sqrt_0].
Qed.

(** For a switch with positive floor and non-negative amplification, the
    cosmologies resonant with the Planck constraints form a region around
    the best-fit point: a cosmology whose chi-squared does not exceed that
    of a resonant one is resonant; so is a cosmology that is no farther
    from the best fit in each of H0 and Om0; and the best-fit point itself
    is resonant as soon as any cosmology is. *)
Theorem planck_resonant_region_surrounds_best_fit
    (this : PlanckCMBData.t) (s : BesemerSwitch) (H0 Om0 H0' Om0' : R) :
  0 < epsilon s ->
  0 <= beta s ->
  call s (PlanckCMBData.compute_residual_norm this H0' Om0') = 1%Z ->
  (PlanckCMBData.compute_chi_squared_simple this H0 Om0
   <= PlanckCMBData.compute_chi_squared_simple this H0' Om0' ->
   call s (PlanckCMBData.compute_residual_norm this H0 Om0) = 1%Z)
  /\ (Rabs (H0 - PlanckCMBData.fiducial_H0 this)
      <= Rabs (H0' - PlanckCMBData.fiducial_H0 this) ->
      Rabs (Om0 - PlanckCMBData.fiducial_Om0 this)
      <= Rabs (Om0' - PlanckCMBData.fiducial_Om0 this) ->
      call s (PlanckCMBData.compute_residual_norm this H0 Om0) = 1%Z)
  /\ call s (PlanckCMBData.compute_residual_norm this
               (PlanckCMBData.fiducial_H0 this)
               (PlanckCMBData.fiducial_Om0 this)) = 1%Z.
Proof.
  intros He Hb Hq. split; [| split].
  - intro Hc.
    exact (@planck_call_antitone this s H0 Om0 H0' Om0' He Hb Hc Hq).
  - intros HH HO.
    apply (@planck_call_antitone this s H0 Om0 H0' Om0' He Hb); [| exact Hq].
    unfold PlanckCMBData.compute_chi_squared_simple. cbv zeta.
    apply Rplus_le_compat; apply sqr_scaled_le; (lra || assumption).
  - apply (@planck_call_antitone this s _ _ H0' Om0' He Hb); [| exact Hq].
    rewrite planck_chi_squared_at_best_fit.
    apply planck_chi_squared_nonneg.
Qed.

Lemma planck_near_best_fit_resonant :
  call default_switch
    (PlanckCMBData.compute_residual_norm PlanckCMBData.init 68 (32 / 100))
  = 1%Z.
Proof.
  rewrite call_where. apply where_ge_one.
  unfold resonance_strength, PlanckCMBData.compute_residual_norm. cbv zeta.
  set (c := PlanckCMBData.compute_chi_squared_simple
              PlanckCMBData.init 68 (32 / 100)).
  assert (Hc : c <= 2 * 2).
  { unfold c, PlanckCMBData.compute_chi_squared_simple, PlanckCMBData.init.
    cbv zeta. simpl. unfold Rsqr. lra. }
  assert (Hs : sqrt c <= 2).
  { rewrite <- (sqrt_square 2) by lra. apply sqrt_le_1_alt. exact Hc. }
  pose proof (sqrt_pos c) as Hp.
  simpl. unfold default_epsilon.
  apply Rle_trans with (296 / 2); [lra |].
  apply div_le_div_l; [lra | |].
  - apply Rmax_floor_pos. lra.
  - apply Rmax_lub; lra.
Qed.

Lemma planck_resonant_region_surrounds_best_fit_witness :
  (PlanckCMBData.compute_chi_squared_simple PlanckCMBData.init
     (67 + 1 / 2) (315 / 1000)
   <= PlanckCMBData.compute_chi_squared_simple PlanckCMBData.init
        68 (32 / 100) ->
   call default_switch
     (PlanckCMBData.compute_residual_norm PlanckCMBData.init
        (67 + 1 / 2) (315 / 1000)) = 1%Z)
  /\ (Rabs (67 + 1 / 2 - PlanckCMBData.fiducial_H0 PlanckCMBData.init)
      <= Rabs (68 - PlanckCMBData.fiducial_H0 PlanckCMBData.init) ->
      Rabs (315 / 1000 - PlanckCMBData.fiducial_Om0 PlanckCMBData.init)
      <= Rabs (32 / 100 - PlanckCMBData.fiducial_Om0 PlanckCMBData.init) ->
      call default_switch
        (PlanckCMBData.compute_residual_norm PlanckCMBData.init
           (67 + 1 / 2) (315 / 1000)) = 1%Z)
  /\ call default_switch
       (PlanckCMBData.compute_residual_norm PlanckCMBData.init
          (PlanckCMBData.fiducial_H0 PlanckCMBData.init)
          (PlanckCMBData.fiducial_Om0 PlanckCMBData.init)) = 1%Z.
Proof.
  apply (@planck_resonant_region_surrounds_best_fit PlanckCMBData.init
           default_switch (67 + 1 / 2) (315 / 1000) 68 (32 / 100)).
  - unfold default_switch, new_switch, default_epsilon; simpl; lra.
  - unfold default_switch, new_switch; simpl; lra.
  - exact planck_near_best_fit_resonant.
Defined.

(** ** The Planck context scan *)

Lemma loop_ok {B S} (Inv : list B -> S -> Prop) (body : B -> S -> result S)
    (xs : list B) :
  Forall (fun x => forall done s, Inv done s ->
                     exists s', body x s = Ok s' /\ Inv (done ++ [x]) s') xs ->
  forall done s, Inv done s ->
    exists s', loop xs body s = Ok s' /\ Inv (done ++ xs) s'.
Proof.
  induction 1 as [| x xs Hx _ IH]; intros done s Hs; simpl.
  - exists s. rewrite app_nil_r. split; [reflexivity | exact Hs].
  - destruct (Hx done s Hs) as (s1 & E1 & H1). rewrite E1. simpl.
    destruct (IH (done ++ [x]) s1 H1) as (s2 & E2 & H2).
    exists s2. rewrite <- app_assoc in H2. split; assumption.
Qed.

Lemma zeros2_shape (rows cols : nat) :
  Grid.has_shape (HubbleDipoleAnalyzerReal.zeros2 rows cols) rows cols.
Proof.
  unfold HubbleDipoleAnalyzerReal.zeros2. split; [apply repeat_length |].
  apply Forall_forall. intros row H. apply repeat_spec in H. subst row.
  apply repeat_length.
Qed.

Lemma filled_map_set (rows cols : nat) (value : nat -> nat -> R)
    (done : list (nat * nat)) (m : Grid.field) (i j : nat) :
  filled_map rows cols value done m ->
  (i < rows)%nat -> (j < cols)%nat ->
  exists m',
    Grid.setitem2 m i j (value i j) = Ok m'
    /\ filled_map rows cols value (done ++ [(i, j)]) m'.
Proof.
  intros [Hs Hd] Hi Hj.
  destruct (setitem2_ok (value i j) Hs Hi Hj) as (m' & E & Hs' & G & O).
  exists m'. split; [exact E |]. split; [exact Hs' |].
  intros a b Hin. apply in_app_iff in Hin.
  destruct (Nat.eq_dec a i) as [-> | Na];
    [destruct (Nat.eq_dec b j) as [-> | Nb] |].
  - exact G.
  - destruct Hin as [Hin | [Hin | []]]; [| congruence].
    rewrite O by congruence. apply Hd. exact Hin.
  - destruct Hin as [Hin | [Hin | []]]; [| congruence].
    rewrite O by congruence. apply Hd. exact Hin.
Qed.

(** [scan_planck_context] never raises.  Both maps it returns have one
    row per H0 value and one column per matter-density value, and entry
    [i][j] holds the switch decision, respectively the resonance
    strength, of the Planck residual norm at (H0_range[i], Om_range[j]). *)
Theorem scan_planck_context_fills_both_maps
    (this : HubbleDipoleAnalyzerReal.t) (H0_range Om_range : Np.ndarray) :
  let switch :=
    new_switch (HubbleDipoleAnalyzerReal.beta this)
               (HubbleDipoleAnalyzerReal.threshold this) in
  exists switch_map resonance_map,
    HubbleDipoleAnalyzerReal.scan_planck_context this H0_range Om_range
    = Ok (switch_map, resonance_map)
    /\ Grid.has_shape switch_map (length H0_range) (length Om_range)
    /\ Grid.has_shape resonance_map (length H0_range) (length Om_range)
    /\ forall i j H0 Om,
         nth_error H0_range i = Some H0 ->
         nth_error Om_range j = Some Om ->
         let residual :=
           PlanckCMBData.compute_residual_norm
             (HubbleDipoleAnalyzerReal.planck this) H0 Om in
         Grid.getitem2 switch_map i j = Ok (IZR (call switch residual))
         /\ Grid.getitem2 resonance_map i j
            = Ok (resonance_strength switch residual).
Proof.
  intro sw.
  set (rows := length H0_range). set (cols := length Om_range).
  set (res := fun i j =>
                PlanckCMBData.compute_residual_norm
                  (HubbleDipoleAnalyzerReal.planck this)
                  (nth i H0_range 0) (nth j Om_range 0)).
  set (vs := fun i j => IZR (call sw (res i j))).
  set (vr := fun i j => resonance_strength sw (res i j)).
  set (Inv := fun (done : list (nat * nat)) (acc : Grid.field * Grid.field) =>
                filled_map rows cols vs done (fst acc)
                /\ filled_map rows cols vr done (snd acc)).
  set (row_of := fun (i : nat) (items : list (nat * R)) =>
                   map (fun item => (i, fst item)) items).
  set (all_of := fun (items : list (nat * R)) =>
                   flat_map (fun item => row_of (fst item)
                                           (Grid.enumerate Om_range)) items).
  assert (Inner : forall i H0 outer acc,
             nth_error H0_range i = Some H0 ->
             Inv (all_of outer) acc ->
             exists acc',
               loop (Grid.enumerate Om_range)
                 (fun '(j, Om) '(switch_map, resonance_map) =>
                    let residual :=
                      PlanckCMBData.compute_residual_norm
                        (HubbleDipoleAnalyzerReal.planck this) H0 Om in
                    rbind (Grid.setitem2 switch_map i j
                             (IZR (call sw residual)))
                      (fun switch_map =>
                    rbind (Grid.setitem2 resonance_map i j
                             (resonance_strength sw residual))
                      (fun resonance_map =>
                    Ok (switch_map, resonance_map)))) acc
               = Ok acc'
               /\ Inv (all_of (outer ++ [(i, H0)])) acc').
  { intros i H0 outer acc Hi Hacc.
    assert (Hi' : (i < rows)%nat).
    { apply nth_error_Some. rewrite Hi. discriminate. }
    destruct (@loop_ok (nat * R) (Grid.field * Grid.field)
                (fun done a => Inv (all_of outer ++ row_of i done) a)
                (fun '(j, Om) '(switch_map, resonance_map) =>
                   let residual :=
                     PlanckCMBData.compute_residual_norm
                       (HubbleDipoleAnalyzerReal.planck this) H0 Om in
                   rbind (Grid.setitem2 switch_map i j
                            (IZR (call sw residual)))
                     (fun switch_map =>
                   rbind (Grid.setitem2 resonance_map i j
                            (resonance_strength sw residual))
                     (fun resonance_map =>
                   Ok (switch_map, resonance_map))))
                (Grid.enumerate Om_range)) with (done := @nil (nat * R))
                                                (s := acc)
      as (acc' & E & H').
    - apply Forall_forall. intros [j Om] Hin done [sm rm] [Hsm Hrm].
      pose proof (enumerate_nth _ _ _ Hin) as Hj.
      assert (Hj' : (j < cols)%nat).
      { apply nth_error_Some. rewrite Hj. discriminate. }
      simpl in Hsm, Hrm.
      destruct (filled_map_set Hsm Hi' Hj') as (sm' & Es & Hs').
      destruct (filled_map_set Hrm Hi' Hj') as (rm' & Er & Hr').
      assert (Ev : res i j = PlanckCMBData.compute_residual_norm
                               (HubbleDipoleAnalyzerReal.planck this) H0 Om).
      { unfold res. rewrite (nth_error_nth_R _ _ Hi), (nth_error_nth_R _ _ Hj).
        reflexivity. }
      unfold vs in Es. unfold vr in Er. rewrite Ev in Es, Er.
      exists (sm', rm'). cbv zeta. rewrite Es. simpl. rewrite Er. simpl.
      split; [reflexivity |].
      unfold row_of. rewrite map_app, app_assoc. simpl.
      split; assumption.
    - unfold row_of. simpl. rewrite app_nil_r. exact Hacc.
    - exists acc'. split; [exact E |].
      unfold all_of. rewrite flat_map_app. simpl. rewrite app_nil_r.
      simpl in H'. exact H'. }
  destruct (@loop_ok (nat * R) (Grid.field * Grid.field)
              (fun done a => Inv (all_of done) a)
              (fun '(i, H0) =>
                 loop (Grid.enumerate Om_range)
                   (fun '(j, Om) '(switch_map, resonance_map) =>
                      let residual :=
                        PlanckCMBData.compute_residual_norm
                          (HubbleDipoleAnalyzerReal.planck this) H0 Om in
                      rbind (Grid.setitem2 switch_map i j
                               (IZR (call sw residual)))
                        (fun switch_map =>
                      rbind (Grid.setitem2 resonance_map i j
                               (resonance_strength sw residual))
                        (fun resonance_map =>
                      Ok (switch_map, resonance_map)))))
              (Grid.enumerate H0_range)) with
      (done := @nil (nat * R))
      (s := (HubbleDipoleAnalyzerReal.zeros2 rows cols,
             HubbleDipoleAnalyzerReal.zeros2 rows cols))
    as ([sm rm] & E & [[Hs1 Hd1] [Hs2 Hd2]]).
  - apply Forall_forall. intros [i H0] Hin done acc Hacc.
    apply Inner; [apply enumerate_nth; exact Hin | exact Hacc].
  - split; (split; [apply zeros2_shape | intros i j []]).
  - simpl in Hs1, Hd1, Hs2, Hd2.
    exists sm, rm. split; [exact E |]. split; [exact Hs1 |].
    split; [exact Hs2 |].
    intros i j H0 Om Hi Hj residual.
    assert (Hin : In (i, j) (all_of (Grid.enumerate H0_range))).
    { unfold all_of. apply in_flat_map. exists (i, H0). split.
      - assert (G : forall l k, nth_error l i = Some H0 ->
                      In ((k + i)%nat, H0) (combine (seq k (length l)) l)).
        { clear. intros l. revert i.
          induction l as [| x l IH]; intros [| i] k H; simpl in *;
            try discriminate.
          - injection H as ->. left. f_equal. lia.
          - right. replace (k + S i)%nat with (S k + i)%nat by lia.
            apply IH. exact H. }
        apply (G H0_range 0%nat Hi).
      - unfold row_of. simpl. apply in_map_iff.
        assert (G : forall l k, nth_error l j = Some Om ->
                      In ((k + j)%nat, Om) (combine (seq k (length l)) l)).
        { clear. intros l. revert j.
          induction l as [| x l IH]; intros [| j] k H; simpl in *;
            try discriminate.
          - injection H as ->. left. f_equal. lia.
          - right. replace (k + S j)%nat with (S k + j)%nat by lia.
            apply IH. exact H. }
        exists (j, Om). split; [reflexivity | apply (G Om_range 0%nat Hj)]. }
    assert (Ev : res i j = residual).
    { unfold res, residual.
      rewrite (nth_error_nth_R _ _ Hi), (nth_error_nth_R _ _ Hj).
      reflexivity. }
    rewrite (Hd1 i j Hin), (Hd2 i j Hin). unfold vs, vr. rewrite Ev.
    split; reflexivity.
Qed.
